(** * Surface batch reactor: the solver test [SurfaceReactorCheck.testSolve]

    A shallow embedding of [rmgpy/solver/surfaceTest.py] together with a
    model of the reactor engine it drives.  Floating-point numbers are
    idealised as exact rationals ([Q]); the sampling times [10 ** (i / 10.0)]
    are irrational and are idealised as real numbers ([R]). *)

From Stdlib Require Import ZArith QArith Qabs List Bool Lia Lra Reals Psatz.
From stdpp Require Import gmap.
Import ListNotations.

(** ** Python helpers used by the test *)

Module Py.

(** [range_from lo n] is the list [lo; lo+1; ...] of length [n]. *)
Fixpoint range_from (lo : Z) (n : nat) : list Z :=
  match n with
  | O => []
  | S n' => lo :: range_from (lo + 1)%Z n'
  end.

(** [range(lo, hi)]: the integers [lo <= i < hi], in increasing order. *)
Definition range (lo hi : Z) : list Z := range_from lo (Z.to_nat (hi - lo)).

(** [xs[-1]], with a default for the empty list (Python raises there). *)
Definition last_item {A : Type} (xs : list A) (d : A) : A := List.last xs d.

(** [sum(xs)]: the built-in adds from the left, starting at zero. *)
Definition sum (xs : list Q) : Q := fold_left Qplus xs 0%Q.

(** [numpy.zeros(n)]. *)
Definition zeros (n : nat) : list Q := repeat 0%Q n.

(** [TestCase.assertAlmostEqual(first, second, delta=delta)] of the standard
    library: it passes when the operands compare equal, or else when
    [abs(first - second) <= delta]; [true] stands for a passing check. *)
Definition assertAlmostEqual (first second delta : Q) : bool :=
  Qeq_bool first second || Qle_bool (Qabs (first - second)) delta.

(** [b] agrees with [a] within the relative tolerance [tol] (of [a]), the
    way the test sets [delta = abs(tol * a)]. *)
Definition withinRelTol (tol a b : Q) : Prop := (Qabs (a - b) <= tol * Qabs a)%Q.

Lemma assertAlmostEqual_of_Qeq (a b delta : Q) :
  (a == b)%Q -> assertAlmostEqual a b delta = true.
Proof.
  intros H. unfold assertAlmostEqual.
  apply orb_true_iff. left. now apply Qeq_bool_iff.
Qed.

Lemma withinRelTol_of_Qeq (tol a b : Q) :
  (0 <= tol)%Q -> (a == b)%Q -> withinRelTol tol a b.
Proof.
  intros Htol H. unfold withinRelTol.
  assert (E : (a - b == 0)%Q) by (rewrite H; ring).
  rewrite E. simpl (Qabs 0).
  apply Qmult_le_0_compat; [exact Htol | apply Qabs_nonneg].
Qed.

Lemma range_from_length lo n : length (range_from lo n) = n.
Proof. revert lo; induction n as [|n IH]; intros lo; simpl; [reflexivity|]. now rewrite IH. Qed.

Lemma range_from_nth n : forall lo k d,
  (k < n)%nat -> nth k (range_from lo n) d = (lo + Z.of_nat k)%Z.
Proof.
  induction n as [|n IH]; intros lo k d Hk; [lia|].
  destruct k as [|k]; simpl.
  - lia.
  - rewrite IH by lia. lia.
Qed.

(** With a tolerance that is not positive the check asks for equal
    operands; with one that is not negative it is the bound on the
    difference alone. *)
Lemma assertAlmostEqual_nonpositive_delta (a b d : Q) :
  (d <= 0)%Q -> (assertAlmostEqual a b d = true <-> (a == b)%Q).
Proof.
  intros Hd. unfold assertAlmostEqual.
  rewrite orb_true_iff, Qeq_bool_iff, Qle_bool_iff.
  split; [|now left]. intros [H|H]; [exact H|].
  assert (H0 : (Qabs (a - b) <= 0)%Q) by (eapply Qle_trans; eassumption).
  apply Qabs_Qle_condition in H0. destruct H0 as [Hlo Hhi].
  assert (E : (a - b == 0)%Q) by (apply Qle_antisym; assumption).
  assert (Ea : (a == (a - b) + b)%Q) by ring.
  rewrite Ea, E. ring.
Qed.

Lemma assertAlmostEqual_nonnegative_delta (a b d : Q) :
  (0 <= d)%Q -> (assertAlmostEqual a b d = true <-> (Qabs (a - b) <= d)%Q).
Proof.
  intros Hd. unfold assertAlmostEqual.
  rewrite orb_true_iff, Qeq_bool_iff, Qle_bool_iff.
  split; [|now right]. intros [H|H]; [|exact H].
  assert (E : (Qabs (a - b) == Qabs 0)%Q) by (apply Qabs_wd; rewrite H; ring).
  rewrite E. exact Hd.
Qed.




End Py.

(** ** The sampling times (lines 76-77)

    [tlist = numpy.array([10 ** (i / 10.0) for i in range(-130, -49)])] *)

Module Sampling.

(** The comprehension's index list, [range(-130, -49)]. *)
Definition tlist_index : list Z := Py.range (-130) (-49).

(** [10 ** (i / 10.0)], over the reals: the exact power that the float of
    line 76 approximates.  Order and the exponents of the end points carry
    over to the floats; equalities between products of entries do not. *)
Definition time_of_index (i : Z) : R := Rpower 10 (IZR i / 10).

Definition tlist : list R := List.map time_of_index tlist_index.

(** The first and the last target time handed to [advance]. *)
Definition first_time : R := List.hd 0%R tlist.
Definition final_time : R := Py.last_item tlist 0%R.

Lemma ln10_pos : (0 < ln 10)%R.
Proof. rewrite <- ln_1. apply ln_increasing; lra. Qed.

Lemma Rpower10_inj (a b : R) : Rpower 10 a = Rpower 10 b -> a = b.
Proof.
  unfold Rpower. intros H. apply exp_inv in H.
  pose proof ln10_pos as Hl.
  apply (Rmult_eq_reg_r (ln 10)); [exact H | lra].
Qed.

Lemma Rpower10_lt (a b : R) : (a < b)%R -> (Rpower 10 a < Rpower 10 b)%R.
Proof. intros H. apply Rpower_lt; lra. Qed.

Lemma tlist_index_eq : tlist_index = Py.range_from (-130) 81.
Proof. reflexivity. Qed.

Lemma tlist_length : length tlist = 81%nat.
Proof. unfold tlist. rewrite length_map. reflexivity. Qed.

Lemma tlist_nth (k : nat) :
  (k < 81)%nat -> nth k tlist 0%R = Rpower 10 (IZR (-130 + Z.of_nat k) / 10).
Proof.
  intros Hk. unfold tlist.
  rewrite (nth_indep _ 0%R (time_of_index 0)) by (rewrite length_map; exact Hk).
  rewrite map_nth. unfold time_of_index. rewrite tlist_index_eq.
  now rewrite Py.range_from_nth.
Qed.

Lemma final_time_eq : final_time = Rpower 10 (-5).
Proof.
  unfold final_time, Py.last_item, tlist.
  rewrite tlist_index_eq.
  change (Py.range_from (-130) 81) with (Py.range_from (-130) 80 ++ [(-50)%Z]).
  rewrite map_app. simpl List.map at 2.
  rewrite last_last. unfold time_of_index. f_equal. lra.
Qed.

Lemma first_time_eq : first_time = Rpower 10 (-13).
Proof.
  unfold first_time, tlist. rewrite tlist_index_eq. simpl.
  unfold time_of_index. f_equal. lra.
Qed.

Lemma tlist_increasing (k : nat) :
  (k < 80)%nat -> (nth k tlist 0 < nth (S k) tlist 0)%R.
Proof.
  intros Hk. rewrite !tlist_nth by lia. apply Rpower10_lt.
  rewrite Nat2Z.inj_succ. unfold Z.succ. rewrite Z.add_assoc, !plus_IZR. lra.
Qed.

(** C5, as stated, fails: the last target time is [10^-5.0], the value
    for [i = -50], and not [10^-5.1]. *)
Lemma final_time_counterexample :
  ~ (first_time = Rpower 10 (-13) /\ final_time = Rpower 10 (-51 / 10)).
Proof.
  intros [_ H]. rewrite final_time_eq in H. apply Rpower10_inj in H. lra.
Qed.

(** C5, amended: the target times passed to [advance] are the 81 values
    [10^(i/10)] for [i = -130 .. -50], in increasing order: they run from
    [10^-13] up to and including the final sampled time [10^-5.0]; the time
    [10^-5.1] is the last but one. *)
Theorem target_times_run_to_1e_minus_5 :
  length tlist = 81%nat /\
  first_time = Rpower 10 (-13) /\
  final_time = Rpower 10 (-5) /\
  nth 79 tlist 0%R = Rpower 10 (-51 / 10) /\
  (forall k, (k < 80)%nat -> (nth k tlist 0 < nth (S k) tlist 0)%R).
Proof.
  split; [apply tlist_length|].
  split; [apply first_time_eq|].
  split; [apply final_time_eq|].
  split; [|apply tlist_increasing].
  rewrite tlist_nth by lia. f_equal; cbn; lra.
Qed.

End Sampling.

(** ** The reactor engine

    [rmgpy.solver.surface.SurfaceReactor] and [rmgpy.solver.simple.SimpleReactor]
    are driven by the test but are not part of the sources at hand; they are
    modelled from the design document, over exact rationals. *)

Module Engine.

Local Open Scope Q_scope.

(** Modelled from the spec: the phase tag of a species (homogeneous gas
    species or adsorbed surface species); the species classes are missing. *)
Inductive Phase : Type := Gas | Surface.

(** Modelled from the spec: a tracked reaction, missing with its class.  It
    references reactant and product species by index, a repeated index
    denoting a multiplicity above one, and carries the two rate coefficients
    [k_forward(j,T)] and [k_reverse(j,T)] already evaluated at the reactor's
    temperature. *)
Record Reaction : Type := mkReaction {
  reactants : list nat;
  products : list nat;
  reversible : bool;
  k_forward : Q;
  k_reverse : Q
}.

(** Modelled from the spec: the species/reaction index and the constants
    fixed at [initializeModel] (the reactor classes are missing): the phase of
    every core species, the core reactions, the gas volume, the
    surface-to-volume ratio and the surface site density. *)
Record Model : Type := mkModel {
  speciesPhase : list Phase;
  coreReactions : list Reaction;
  volume : Q;
  surfaceVolumeRatio : Q;
  surfaceSiteDensity : Q
}.

(** Modelled from the spec: the number of core species of the index. *)
Definition numCoreSpecies (m : Model) : nat := length (speciesPhase m).

(** Modelled from the spec: the phase tag carried by species [i]. *)
Definition phaseOf (m : Model) (i : nat) : Phase := nth i (speciesPhase m) Gas.

(** Modelled from the spec: the catalyst area in contact with the gas
    volume, from the surface-to-volume ratio. *)
Definition siteArea (m : Model) : Q := volume m * surfaceVolumeRatio m.

(** Modelled from the spec: what an amount is divided by to enter a rate
    law: the volume for a gas species (molar concentration), the total site
    capacity for a surface species (coverage, a dimensionless fraction). *)
Definition concentrationUnit (m : Model) (i : nat) : Q :=
  match phaseOf m i with
  | Gas => volume m
  | Surface => siteArea m * surfaceSiteDensity m
  end.

(** Modelled from the spec: the "volume or site-area normalization" of the
    residual row of species [i]. *)
Definition normalization (m : Model) (i : nat) : Q :=
  match phaseOf m i with
  | Gas => volume m
  | Surface => siteArea m
  end.

(** Modelled from the spec: the amount [y[i]] of a state vector (zero
    outside the vector). *)
Definition amount (y : list Q) (i : nat) : Q := nth i y 0.

(** Modelled from the spec: molar concentration of a gas species, coverage
    of a surface species. *)
Definition concentration (m : Model) (y : list Q) (i : nat) : Q :=
  amount y i / concentrationUnit m i.

(** Modelled from the spec: the mass-action product over a reactant (or
    product) list, a repeated species entering once per occurrence. *)
Fixpoint concentrationProduct (m : Model) (y : list Q) (side : list nat) : Q :=
  match side with
  | [] => 1
  | i :: side' => concentration m y i * concentrationProduct m y side'
  end.

(** Modelled from the spec: the forward and the reverse term of the law of
    mass action. *)
Definition forwardRate (m : Model) (y : list Q) (r : Reaction) : Q :=
  k_forward r * concentrationProduct m y (reactants r).

Definition reverseRate (m : Model) (y : list Q) (r : Reaction) : Q :=
  if reversible r then k_reverse r * concentrationProduct m y (products r) else 0.

(** Modelled from the spec: net rate of a reaction, forward minus reverse
    when reversible, else the forward term only. *)
Definition reactionRate (m : Model) (y : list Q) (r : Reaction) : Q :=
  forwardRate m y r - reverseRate m y r.

(** Modelled from the spec: the multiplicity of species [i] on one side
    of a reaction. *)
Definition occurrences (i : nat) (side : list nat) : nat :=
  count_occ Nat.eq_dec side i.

(** Modelled from the spec: [stoich(j,i)], moles of [i] produced minus
    moles consumed per extent of the reaction. *)
Definition stoich (r : Reaction) (i : nat) : Z :=
  (Z.of_nat (occurrences i (products r)) - Z.of_nat (occurrences i (reactants r)))%Z.

(** Modelled from the spec: [sum_j stoich(j,i) * rate[j]] over a reaction
    list and its rates. *)
Fixpoint stoichSum (rs : list Reaction) (rates : list Q) (i : nat) : Q :=
  match rs, rates with
  | r :: rs', q :: rates' => inject_Z (stoich r i) * q + stoichSum rs' rates' i
  | _, _ => 0
  end.

(** Modelled from the spec: the net reaction rates (one per core
    reaction) and the net species production rates (one per core species). *)
Definition reactionRates (m : Model) (y : list Q) : list Q :=
  List.map (reactionRate m y) (coreReactions m).

Definition speciesRates (m : Model) (y : list Q) : list Q :=
  List.map (stoichSum (coreReactions m) (reactionRates m y))
           (seq 0 (numCoreSpecies m)).

(** Modelled from the spec: the rate evaluator (the reactor classes are
    missing), returning the net reaction rates and the net species
    production rates at state [y]. *)
Definition rateEvaluator (m : Model) (y : list Q) : list Q * list Q :=
  (reactionRates m y, speciesRates m y).

(** Modelled from the spec: [speciesRate[i]]. *)
Definition speciesRate (m : Model) (y : list Q) (i : nat) : Q :=
  nth i (speciesRates m y) 0.

(** *** Residual *)

(** Element-wise array arithmetic (numpy refuses operands of different
    shapes; here the result is cut to the shorter operand). *)
Fixpoint zipWith {A B C : Type} (f : A -> B -> C) (xs : list A) (ys : list B) : list C :=
  match xs, ys with
  | x :: xs', y :: ys' => f x y :: zipWith f xs' ys'
  | _, _ => []
  end.

(** Modelled from the spec: the normalizations of all residual rows. *)
Definition normalizations (m : Model) : list Q :=
  List.map (normalization m) (seq 0 (numCoreSpecies m)).

(** Modelled from the spec: the rate term of the residual,
    [speciesRate[i] * normalization[i]]. *)
Definition rateTerms (m : Model) (y : list Q) : list Q :=
  zipWith Qmult (speciesRates m y) (normalizations m).

(** Modelled from the spec: the rate term of residual row [i]. *)
Definition rateTerm (m : Model) (y : list Q) (i : nat) : Q :=
  nth i (rateTerms m y) 0.

(** Modelled from the spec: the status the residual hands back to the
    stepper. *)
Inductive Flag : Type := EvalSuccess | EvalFailure.

(** Modelled from the spec: whether the evaluation stays finite.  Over
    exact rationals the one way an evaluation yields a non-finite value is a
    division by zero, when a concentration is formed. *)
Definition finiteEvaluation (m : Model) : bool :=
  forallb (fun i => negb (Qeq_bool (concentrationUnit m i) 0))
          (seq 0 (numCoreSpecies m)).

(** Modelled from the spec: the residual callback (the reactor classes are
    missing): [F[i] = dydt[i] - speciesRate[i] * normalization[i]], with a
    flag that reports whether the evaluation produced finite values only. *)
Definition residual (m : Model) (t : R) (y dydt : list Q) : list Q * Flag :=
  (zipWith Qminus dydt (rateTerms m y),
   if finiteEvaluation m then EvalSuccess else EvalFailure).

(** *** Analytic Jacobian *)

(** Modelled from the spec: [d concentration[i] / d y[k]]. *)
Definition dConcentration (m : Model) (k i : nat) : Q :=
  if Nat.eqb i k then 1 / concentrationUnit m i else 0.

(** Modelled from the spec: the product rule over a mass-action product. *)
Fixpoint dConcentrationProduct (m : Model) (y : list Q) (k : nat) (side : list nat) : Q :=
  match side with
  | [] => 0
  | i :: side' =>
      dConcentration m k i * concentrationProduct m y side'
      + concentration m y i * dConcentrationProduct m y k side'
  end.

(** Modelled from the spec: [d rate[j] / d y[k]]. *)
Definition dReactionRate (m : Model) (y : list Q) (k : nat) (r : Reaction) : Q :=
  k_forward r * dConcentrationProduct m y k (reactants r)
  - (if reversible r then k_reverse r * dConcentrationProduct m y k (products r) else 0).

(** Modelled from the spec: [d speciesRate[i] / d y[k]], accumulated over
    the reactions. *)
Definition dSpeciesRate (m : Model) (y : list Q) (k i : nat) : Q :=
  stoichSum (coreReactions m) (List.map (dReactionRate m y k) (coreReactions m)) i.

(** Modelled from the spec: [d dydt[i] / d dydt[k]], one iff [i = k]. *)
Definition kronecker (i k : nat) : Q := if Nat.eqb i k then 1 else 0.

(** Modelled from the spec: the entry [J[i][k]] of the analytic Jacobian,
    for [F[i] = dydt[i] - speciesRate[i] * normalization[i]]. *)
Definition jacobianEntry (m : Model) (y : list Q) (cj : Q) (i k : nat) : Q :=
  - (dSpeciesRate m y k i * normalization m i) + cj * kronecker i k.

(** Modelled from the spec: the analytic Jacobian callback (the reactor
    classes are missing): [J[i][k] = dF[i]/dy[k] + cj * dF[i]/d(dydt[k])],
    row by row, in closed form. *)
Definition jacobian (m : Model) (t : R) (y dydt : list Q) (cj : Q) : list (list Q) :=
  List.map (fun i => List.map (jacobianEntry m y cj i) (seq 0 (numCoreSpecies m)))
           (seq 0 (numCoreSpecies m)).

(** [J[i, k]], zero outside the matrix. *)
Definition entry (J : list (list Q)) (i k : nat) : Q := nth k (nth i J []) 0.

(** *** Rate-coefficient sensitivities *)


End Engine.

(** ** Algebra of the engine's rate laws *)

Module EngineFacts.

Import Engine.
Local Open Scope Q_scope.

(** [y[k] += d] (line 244); nothing changes outside the vector, where
    Python raises. *)
Fixpoint addAt (k : nat) (d : Q) (y : list Q) : list Q :=
  match y, k with
  | [], _ => []
  | x :: y', O => (x + d) :: y'
  | x :: y', S k' => x :: addAt k' d y'
  end.

Lemma addAt_length k d y : length (addAt k d y) = length y.
Proof.
  revert k; induction y as [|x y IH]; intros [|k]; simpl; try reflexivity.
  now rewrite IH.
Qed.

Lemma amount_addAt_same k d y :
  (k < length y)%nat -> amount (addAt k d y) k = amount y k + d.
Proof.
  unfold amount. revert k; induction y as [|x y IH]; intros [|k] Hk; simpl in *;
    try lia; try reflexivity.
  apply IH. lia.
Qed.

Lemma amount_addAt_other k d y i :
  i <> k -> amount (addAt k d y) i = amount y i.
Proof.
  unfold amount. revert k i; induction y as [|x y IH]; intros [|k] [|i] Hik; simpl;
    try reflexivity; try congruence.
  apply IH. congruence.
Qed.

Lemma concentration_addAt m k d y i :
  (k < length y)%nat ->
  concentration m (addAt k d y) i == concentration m y i + d * dConcentration m k i.
Proof.
  intros Hk. unfold concentration, dConcentration.
  destruct (Nat.eqb_spec i k) as [->|Hne].
  - rewrite amount_addAt_same by exact Hk. unfold Qdiv. ring.
  - rewrite amount_addAt_other by exact Hne. ring.
Qed.

Lemma concentrationProduct_addAt_absent m k d y side :
  occurrences k side = 0%nat ->
  concentrationProduct m (addAt k d y) side = concentrationProduct m y side.
Proof.
  unfold occurrences. induction side as [|i side IH]; simpl; [reflexivity|].
  destruct (Nat.eq_dec i k) as [->|Hne]; [discriminate|].
  intros H0. rewrite IH by exact H0.
  unfold concentration. now rewrite amount_addAt_other.
Qed.

Lemma dConcentrationProduct_absent m y k side :
  occurrences k side = 0%nat -> dConcentrationProduct m y k side == 0.
Proof.
  unfold occurrences. induction side as [|i side IH]; simpl; [reflexivity|].
  destruct (Nat.eq_dec i k) as [->|Hne]; [discriminate|].
  intros H0. rewrite IH by exact H0. unfold dConcentration.
  destruct (Nat.eqb_spec i k); [contradiction|]. ring.
Qed.

(** A product in which [k] occurs at most once is affine in [y[k]]: the
    forward difference is the derivative. *)
Lemma concentrationProduct_addAt m k d y side :
  (k < length y)%nat ->
  (occurrences k side <= 1)%nat ->
  concentrationProduct m (addAt k d y) side
  == concentrationProduct m y side + d * dConcentrationProduct m y k side.
Proof.
  intros Hk. induction side as [|i side IH]; intros Hocc.
  - simpl. ring.
  - cbn [concentrationProduct dConcentrationProduct].
    rewrite (concentration_addAt m k d y i Hk).
    unfold occurrences in Hocc. simpl in Hocc.
    destruct (Nat.eq_dec i k) as [->|Hne].
    + assert (H0 : occurrences k side = 0%nat) by (unfold occurrences; lia).
      rewrite (concentrationProduct_addAt_absent m k d y side H0).
      rewrite (dConcentrationProduct_absent m y k side H0). ring.
    + rewrite IH by exact Hocc.
      unfold dConcentration. destruct (Nat.eqb_spec i k); [contradiction|]. ring.
Qed.


Lemma reactionRate_addAt m k d y r :
  (k < length y)%nat ->
  (occurrences k (reactants r) <= 1)%nat ->
  (occurrences k (products r) <= 1)%nat ->
  reactionRate m (addAt k d y) r == reactionRate m y r + d * dReactionRate m y k r.
Proof.
  intros Hk Hr Hp. unfold reactionRate, forwardRate, reverseRate, dReactionRate.
  rewrite (concentrationProduct_addAt m k d y (reactants r) Hk Hr).
  destruct (reversible r).
  - rewrite (concentrationProduct_addAt m k d y (products r) Hk Hp). ring.
  - ring.
Qed.

(** The stoichiometric sum is linear in the rates. *)
Lemma stoichSum_affine (f f' g : Reaction -> Q) (d : Q) (i : nat) (rs' : list Reaction) :
  (forall r, In r rs' -> f' r == f r + d * g r) ->
  forall rs,
  stoichSum rs (List.map f' rs') i
  == stoichSum rs (List.map f rs') i + d * stoichSum rs (List.map g rs') i.
Proof.
  induction rs' as [|r' rs' IH]; intros Hf rs.
  - destruct rs; simpl; ring.
  - destruct rs as [|r rs]; simpl; [ring|].
    rewrite (Hf r') by (left; reflexivity).
    rewrite IH by (intros r0 Hr0; apply Hf; right; exact Hr0).
    ring.
Qed.

Lemma speciesRates_length m y : length (speciesRates m y) = numCoreSpecies m.
Proof. unfold speciesRates. now rewrite length_map, length_seq. Qed.

Lemma reactionRates_length m y : length (reactionRates m y) = length (coreReactions m).
Proof. unfold reactionRates. now rewrite length_map. Qed.

Lemma normalizations_length m : length (normalizations m) = numCoreSpecies m.
Proof. unfold normalizations. now rewrite length_map, length_seq. Qed.

Lemma nth_map_seq {A : Type} (f : nat -> A) (n i : nat) (d : A) :
  (i < n)%nat -> nth i (List.map f (seq 0 n)) d = f i.
Proof.
  intros Hi. rewrite (nth_indep _ d (f 0%nat)) by (now rewrite length_map, length_seq).
  rewrite map_nth. now rewrite seq_nth.
Qed.

Lemma speciesRate_eq m y i :
  (i < numCoreSpecies m)%nat ->
  speciesRate m y i = stoichSum (coreReactions m) (reactionRates m y) i.
Proof. intros Hi. unfold speciesRate, speciesRates. now rewrite nth_map_seq. Qed.

Lemma zipWith_length {A B C : Type} (f : A -> B -> C) xs ys :
  length (zipWith f xs ys) = Nat.min (length xs) (length ys).
Proof.
  revert ys; induction xs as [|x xs IH]; intros [|y ys]; simpl; try reflexivity.
  now rewrite IH.
Qed.

Lemma zipWith_nth {A B C : Type} (f : A -> B -> C) xs ys i da db dc :
  (i < length xs)%nat -> (i < length ys)%nat ->
  nth i (zipWith f xs ys) dc = f (nth i xs da) (nth i ys db).
Proof.
  revert ys i; induction xs as [|x xs IH]; intros [|y ys] [|i] Hx Hy; simpl in *;
    try lia; try reflexivity.
  apply IH; lia.
Qed.

Lemma rateTerms_length m y : length (rateTerms m y) = numCoreSpecies m.
Proof.
  unfold rateTerms. rewrite zipWith_length, speciesRates_length, normalizations_length.
  lia.
Qed.

Lemma rateTerm_eq m y i :
  (i < numCoreSpecies m)%nat ->
  rateTerm m y i = speciesRate m y i * normalization m i.
Proof.
  intros Hi. unfold rateTerm, rateTerms.
  rewrite (zipWith_nth Qmult _ _ i 0 0 0)
    by (rewrite ?speciesRates_length, ?normalizations_length; exact Hi).
  unfold speciesRate, normalizations. now rewrite nth_map_seq.
Qed.

Lemma residual_nth m t y dydt i :
  (i < numCoreSpecies m)%nat -> (i < length dydt)%nat ->
  nth i (fst (residual m t y dydt)) 0 = nth i dydt 0 - rateTerm m y i.
Proof.
  intros Hi Hd. unfold residual, rateTerm. simpl.
  apply zipWith_nth; [exact Hd | now rewrite rateTerms_length].
Qed.

Lemma entry_jacobian m t y dydt cj i k :
  (i < numCoreSpecies m)%nat -> (k < numCoreSpecies m)%nat ->
  entry (jacobian m t y dydt cj) i k = jacobianEntry m y cj i k.
Proof.
  intros Hi Hk. unfold entry, jacobian.
  rewrite (nth_map_seq _ _ i []) by exact Hi.
  now rewrite nth_map_seq.
Qed.


(** *** The engine respects equality of rationals

    [y[i] += dN] followed by [y[i] -= dN] gives the entry back as another
    fraction of the same value, so the rate laws are compared on vectors
    that agree entry by entry up to [==]. *)

Definition veq (y y' : list Q) : Prop := Forall2 Qeq y y'.

Lemma veq_refl y : veq y y.
Proof. induction y; constructor; [reflexivity | assumption]. Qed.

Lemma veq_sym y y' : veq y y' -> veq y' y.
Proof. induction 1; constructor; [now symmetry | assumption]. Qed.

Lemma veq_trans y1 y2 y3 : veq y1 y2 -> veq y2 y3 -> veq y1 y3.
Proof.
  intros H; revert y3; induction H; intros y3 H3; inversion H3; subst; constructor.
  - etransitivity; eassumption.
  - now apply IHForall2.
Qed.

Lemma veq_length y y' : veq y y' -> length y = length y'.
Proof. induction 1; simpl; congruence. Qed.

Lemma veq_amount y y' i : veq y y' -> amount y i == amount y' i.
Proof.
  unfold amount. intros H; revert i; induction H; intros [|i]; simpl;
    try reflexivity; auto.
Qed.

Lemma veq_addAt k d y y' : veq y y' -> veq (addAt k d y) (addAt k d y').
Proof.
  intros H; revert k; induction H as [|x x' y y' Hx Hy IH]; intros [|k]; simpl;
    constructor; try assumption; try apply IH.
  - now rewrite Hx.
Qed.

(** Line 247: the reset restores the value of every entry. *)
Lemma addAt_reset k d y : veq (addAt k (- d) (addAt k d y)) y.
Proof.
  revert k; induction y as [|x y IH]; intros [|k]; simpl; try constructor;
    try apply veq_refl; try apply IH; try reflexivity.
  ring.
Qed.

Lemma veq_concentration m y y' i :
  veq y y' -> concentration m y i == concentration m y' i.
Proof. intros H. unfold concentration. now rewrite (veq_amount y y' i H). Qed.

Lemma veq_concentrationProduct m y y' side :
  veq y y' -> concentrationProduct m y side == concentrationProduct m y' side.
Proof.
  intros H. induction side as [|i side IH]; simpl; [reflexivity|].
  now rewrite IH, (veq_concentration m y y' i H).
Qed.

Lemma veq_dConcentrationProduct m y y' k side :
  veq y y' -> dConcentrationProduct m y k side == dConcentrationProduct m y' k side.
Proof.
  intros H. induction side as [|i side IH]; simpl; [reflexivity|].
  now rewrite IH, (veq_concentration m y y' i H), (veq_concentrationProduct m y y' side H).
Qed.

Lemma veq_reactionRate m y y' r :
  veq y y' -> reactionRate m y r == reactionRate m y' r.
Proof.
  intros H. unfold reactionRate, forwardRate, reverseRate.
  rewrite (veq_concentrationProduct m y y' (reactants r) H).
  destruct (reversible r); [|reflexivity].
  now rewrite (veq_concentrationProduct m y y' (products r) H).
Qed.

Lemma veq_dReactionRate m y y' k r :
  veq y y' -> dReactionRate m y k r == dReactionRate m y' k r.
Proof.
  intros H. unfold dReactionRate.
  rewrite (veq_dConcentrationProduct m y y' k (reactants r) H).
  destruct (reversible r); [|reflexivity].
  now rewrite (veq_dConcentrationProduct m y y' k (products r) H).
Qed.

Lemma stoichSum_ext (f f' : Reaction -> Q) (i : nat) (rs' : list Reaction) :
  (forall r, In r rs' -> f' r == f r) ->
  forall rs, stoichSum rs (List.map f' rs') i == stoichSum rs (List.map f rs') i.
Proof.
  intros Hf rs.
  rewrite (stoichSum_affine f f' (fun _ => 0) 0 i rs').
  - ring.
  - intros r Hr. rewrite (Hf r Hr). ring.
Qed.

Lemma veq_speciesRate m y y' i :
  (i < numCoreSpecies m)%nat -> veq y y' -> speciesRate m y i == speciesRate m y' i.
Proof.
  intros Hi H. rewrite !speciesRate_eq by exact Hi. unfold reactionRates.
  apply stoichSum_ext. intros r _. now apply veq_reactionRate.
Qed.

Lemma veq_rateTerm m y y' i :
  (i < numCoreSpecies m)%nat -> veq y y' -> rateTerm m y i == rateTerm m y' i.
Proof.
  intros Hi H. rewrite !rateTerm_eq by exact Hi.
  now rewrite (veq_speciesRate m y y' i Hi H).
Qed.

Lemma veq_jacobianEntry m y y' cj i k :
  veq y y' -> jacobianEntry m y cj i k == jacobianEntry m y' cj i k.
Proof.
  intros H. unfold jacobianEntry, dSpeciesRate.
  rewrite (stoichSum_ext (dReactionRate m y' k) (dReactionRate m y k) i (coreReactions m)).
  - reflexivity.
  - intros r _. now apply veq_dReactionRate.
Qed.

(** *** Species of higher order

    Where a species enters a mass-action product more than once the product
    is a polynomial in its amount; the forward difference then overshoots
    the derivative, by a fraction that the size of the perturbation against
    the amount controls. *)

(** Positive gas volume and positive site capacity. *)
Definition positiveUnits (m : Model) : Prop := forall i, 0 < concentrationUnit m i.

Definition nonnegative (y : list Q) : Prop := Forall (fun a => 0 <= a) y.

Lemma amount_nonneg y i : nonnegative y -> 0 <= amount y i.
Proof.
  unfold amount. intros H. revert i.
  induction H as [|a y Ha _ IH]; intros [|i]; simpl; auto; apply Qle_refl.
Qed.

Lemma addAt_nonnegative k d y : 0 <= d -> nonnegative y -> nonnegative (addAt k d y).
Proof.
  intros Hd H. revert k. induction H as [|a y Ha Hy IH]; intros [|k]; simpl.
  - constructor.
  - constructor.
  - constructor; [lra | exact Hy].
  - constructor; [exact Ha | apply IH].
Qed.

Lemma concentration_nonneg m y i :
  positiveUnits m -> nonnegative y -> 0 <= concentration m y i.
Proof.
  intros Hu Hy. unfold concentration, Qdiv.
  apply Qmult_le_0_compat; [now apply amount_nonneg|].
  apply Qinv_le_0_compat, Qlt_le_weak, Hu.
Qed.

Lemma concentrationProduct_nonneg m y side :
  positiveUnits m -> nonnegative y -> 0 <= concentrationProduct m y side.
Proof.
  intros Hu Hy. induction side as [|i side IH]; simpl; [discriminate|].
  apply Qmult_le_0_compat; [now apply concentration_nonneg | exact IH].
Qed.

(** The multiplicity of a species on one side, as a rational. *)
Definition multiplicity (k : nat) (side : list nat) : Q :=
  inject_Z (Z.of_nat (occurrences k side)).

Lemma multiplicity_nonneg k side : 0 <= multiplicity k side.
Proof.
  unfold multiplicity. change 0 with (inject_Z 0). rewrite <- Zle_Qle. lia.
Qed.

Lemma multiplicity_here k side : multiplicity k (k :: side) == multiplicity k side + 1.
Proof.
  unfold multiplicity, occurrences. simpl.
  destruct (Nat.eq_dec k k) as [_|Hne]; [|contradiction].
  rewrite Nat2Z.inj_succ. unfold Z.succ. rewrite inject_Z_plus. reflexivity.
Qed.

Lemma multiplicity_other k i side :
  i <> k -> multiplicity k (i :: side) = multiplicity k side.
Proof.
  intros Hne. unfold multiplicity, occurrences. simpl.
  destruct (Nat.eq_dec i k) as [E|_]; [contradiction | reflexivity].
Qed.

Section HigherOrder.

Variable m : Model.
Variable k : nat.
Variable d : Q.
Variable y : list Q.

Hypothesis Hk : (k < length y)%nat.
Hypothesis Hd : 0 <= d.
Hypothesis Hu : positiveUnits m.
Hypothesis Hy : nonnegative y.

(** The concentration of species [k] and what the perturbation adds to
    it. *)
Definition level : Q := concentration m y k.
Definition shift : Q := d * dConcentration m k k.

Lemma level_nonneg : 0 <= level.
Proof. now apply concentration_nonneg. Qed.

Lemma shift_nonneg : 0 <= shift.
Proof.
  unfold shift, dConcentration. rewrite Nat.eqb_refl.
  apply Qmult_le_0_compat; [exact Hd|]. unfold Qdiv.
  apply Qmult_le_0_compat; [discriminate|].
  apply Qinv_le_0_compat, Qlt_le_weak, Hu.
Qed.

Lemma concentration_shifted :
  concentration m (addAt k d y) k == level + shift.
Proof. unfold level, shift. now apply concentration_addAt. Qed.

Lemma concentration_unshifted i :
  i <> k -> concentration m (addAt k d y) i = concentration m y i.
Proof. intros Hne. unfold concentration. now rewrite amount_addAt_other. Qed.

(** What the perturbation does to a mass-action product: it does not
    lower it, the forward difference is at least the derivative, and the
    product grows by less than the factor [level / (level - n * shift)] for a
    species of multiplicity [n]. *)
Lemma product_invariants side :
  0 <= concentrationProduct m y side /\
  concentrationProduct m y side <= concentrationProduct m (addAt k d y) side /\
  d * dConcentrationProduct m y k side
  <= concentrationProduct m (addAt k d y) side - concentrationProduct m y side /\
  (level - multiplicity k side * shift) * concentrationProduct m (addAt k d y) side
  <= level * concentrationProduct m y side.
Proof.
  pose proof level_nonneg as Hx. pose proof shift_nonneg as Hs.
  induction side as [|i side IH].
  - cbn [concentrationProduct dConcentrationProduct].
    change (multiplicity k []) with (inject_Z 0). change (inject_Z 0) with 0.
    repeat split; lra.
  - destruct IH as (H0 & H1 & H2 & H3).
    cbn [concentrationProduct dConcentrationProduct].
    set (P := concentrationProduct m y side) in *.
    set (P' := concentrationProduct m (addAt k d y) side) in *.
    set (D := dConcentrationProduct m y k side) in *.
    destruct (Nat.eq_dec i k) as [->|Hne].
    + pose proof concentration_shifted as Hc. fold level.
      set (c' := concentration m (addAt k d y) k) in *.
      pose proof (multiplicity_here k side) as Hn.
      pose proof (multiplicity_nonneg k side) as Hn0.
      set (n := multiplicity k side) in *.
      set (n' := multiplicity k (k :: side)) in *.
      fold shift. set (x := level) in *. set (s := shift) in *.
      assert (E1 : d * (dConcentration m k k * P + x * D) == s * P + x * (d * D))
        by (unfold s, shift; ring).
      assert (A1 : 0 <= x * P) by nra.
      assert (A2 : x * P <= x * P') by nra.
      assert (A3 : s * P <= s * P') by nra.
      assert (A4 : 0 <= s * P') by nra.
      assert (A5 : x * (d * D) <= x * (P' - P)) by nra.
      assert (A6 : x * ((x - n * s) * P') <= x * (x * P)) by nra.
      assert (A7 : 0 <= (n + 1) * (s * (s * P'))) by nra.
      assert (E2 : c' * P' == x * P' + s * P') by (rewrite Hc; ring).
      assert (E3 : (x - n' * s) * (c' * P')
                   == x * ((x - n * s) * P') - (n + 1) * (s * (s * P')))
        by (rewrite Hc, Hn; ring).
      repeat split.
      * exact A1.
      * rewrite E2. lra.
      * rewrite E1, E2. lra.
      * rewrite E3. lra.
    + rewrite (concentration_unshifted i Hne), (multiplicity_other k i side Hne).
      pose proof (concentration_nonneg m y i Hu Hy) as Hc.
      set (c := concentration m y i) in *.
      assert (E0 : dConcentration m k i == 0).
      { unfold dConcentration. destruct (Nat.eqb_spec i k); [contradiction | reflexivity]. }
      set (n := multiplicity k side) in *. set (x := level) in *. set (s := shift) in *.
      assert (E1 : d * (dConcentration m k i * P + c * D) == c * (d * D))
        by (rewrite E0; ring).
      assert (E3 : (x - n * s) * (c * P') == c * ((x - n * s) * P')) by ring.
      assert (E4 : x * (c * P) == c * (x * P)) by ring.
      repeat split.
      * nra.
      * nra.
      * rewrite E1. nra.
      * rewrite E3, E4. nra.
Qed.

Lemma nonpositive_factor (a b : Q) : 0 < a -> a * b <= 0 -> b <= 0.
Proof. intros Ha H. nra. Qed.

(** The forward difference of a product overshoots its derivative by at
    most the fraction [eps] of itself when [(n - 1) * shift <= eps * level]. *)
Lemma product_error_bound (eps : Q) side :
  0 < level -> 0 <= eps ->
  (multiplicity k side - 1) * shift <= eps * level ->
  concentrationProduct m (addAt k d y) side - concentrationProduct m y side
  - d * dConcentrationProduct m y k side
  <= eps * (concentrationProduct m (addAt k d y) side - concentrationProduct m y side).
Proof.
  intros Hx Heps.
  pose proof shift_nonneg as Hs.
  induction side as [|i side IH]; intros Hn.
  - cbn [concentrationProduct dConcentrationProduct]. lra.
  - cbn [concentrationProduct dConcentrationProduct].
    destruct (product_invariants side) as (H0 & H1 & H2 & H3).
    set (P := concentrationProduct m y side) in *.
    set (P' := concentrationProduct m (addAt k d y) side) in *.
    set (D := dConcentrationProduct m y k side) in *.
    destruct (Nat.eq_dec i k) as [->|Hne].
    + pose proof concentration_shifted as Hc. fold level.
      set (c' := concentration m (addAt k d y) k) in *.
      rewrite multiplicity_here in Hn.
      pose proof (multiplicity_nonneg k side) as Hn0.
      set (n := multiplicity k side) in *.
      fold shift. set (x := level) in *. set (s := shift) in *.
      assert (Hn' : n * s <= eps * x) by lra.
      assert (IH' : P' - P - d * D <= eps * (P' - P)).
      { apply IH. assert (0 <= 1 * s) by lra. lra. }
      assert (B1 : (n * s - eps * x) * P' <= 0) by nra.
      assert (B2 : x * (P' - P - eps * P') <= 0).
      { assert (E : x * (P' - P - eps * P')
                    == (x - n * s) * P' - x * P + (n * s - eps * x) * P') by ring.
        rewrite E. lra. }
      pose proof (nonpositive_factor x _ Hx B2) as B3.
      assert (B4 : x * (P' - P - d * D) <= x * (eps * (P' - P))) by nra.
      assert (B5 : s * (P' - P) <= s * (eps * P')) by nra.
      assert (E1 : c' * P' - x * P - d * (dConcentration m k k * P + x * D)
                   == x * (P' - P - d * D) + s * (P' - P))
        by (rewrite Hc; unfold s, shift; ring).
      assert (E2 : eps * (c' * P' - x * P) == x * (eps * (P' - P)) + s * (eps * P'))
        by (rewrite Hc; ring).
      rewrite E1, E2. lra.
    + rewrite (concentration_unshifted i Hne).
      rewrite (multiplicity_other k i side Hne) in Hn.
      pose proof (concentration_nonneg m y i Hu Hy) as Hc.
      set (c := concentration m y i) in *.
      assert (E0 : dConcentration m k i == 0).
      { unfold dConcentration. destruct (Nat.eqb_spec i k); [contradiction | reflexivity]. }
      specialize (IH Hn).
      assert (E1 : c * P' - c * P - d * (dConcentration m k i * P + c * D)
                   == c * (P' - P - d * D)) by (rewrite E0; ring).
      assert (E2 : eps * (c * P' - c * P) == c * (eps * (P' - P))) by ring.
      rewrite E1, E2. nra.
Qed.

End HigherOrder.

(** Species [k] stands on one side of the reaction only, as far as its
    rate law goes. *)
Definition oneSided (r : Reaction) (k : nat) : Prop :=
  occurrences k (products r) = 0%nat \/ reversible r = false \/
  occurrences k (reactants r) = 0%nat.

(** The order of the rate law in species [k]. *)
Definition orderOf (r : Reaction) (k : nat) : nat :=
  Nat.max (occurrences k (reactants r)) (occurrences k (products r)).

(** An error [e] of the sign of the change [a] it belongs to, and at most
    the fraction [eps] of it. *)
Definition tame (eps e a : Q) : Prop :=
  (0 <= a /\ 0 <= e /\ e <= eps * a) \/ (a <= 0 /\ eps * a <= e /\ e <= 0).

Lemma tame_wd eps e e' a a' : e == e' -> a == a' -> tame eps e a -> tame eps e' a'.
Proof. intros He Ha H. unfold tame in *. now rewrite <- He, <- Ha. Qed.

Lemma tame_scale eps c e a : 0 <= eps -> tame eps e a -> tame eps (c * e) (c * a).
Proof.
  intros Heps H. destruct (Qlt_le_dec c 0) as [Hc|Hc].
  - destruct H as [(H1 & H2 & H3)|(H1 & H2 & H3)]; [right | left]; repeat split; nra.
  - destruct H as [(H1 & H2 & H3)|(H1 & H2 & H3)]; [left | right]; repeat split; nra.
Qed.

Lemma tame_exact eps e a : 0 <= eps -> e == 0 -> tame eps e a.
Proof.
  intros Heps He. destruct (Qlt_le_dec a 0) as [Ha|Ha]; [right | left]; repeat split; nra.
Qed.

Lemma tame_abs eps e a : 0 <= eps -> tame eps e a -> Qabs e <= eps * Qabs a.
Proof.
  intros Heps [(H1 & H2 & H3)|(H1 & H2 & H3)].
  - rewrite (Qabs_pos e H2), (Qabs_pos a H1). exact H3.
  - rewrite (Qabs_neg e H3), (Qabs_neg a H1). lra.
Qed.

Lemma level_shift_condition m k d y (n : nat) (p : nat) (eps : Q) :
  positiveUnits m -> 0 <= d -> 0 <= eps -> (n <= p)%nat ->
  inject_Z (Z.of_nat p - 1) * d <= eps * amount y k ->
  (inject_Z (Z.of_nat n) - 1) * shift m k d <= eps * level m k y.
Proof.
  intros Hu Hd Heps Hnp H.
  unfold shift, level, concentration, dConcentration. rewrite Nat.eqb_refl.
  pose proof (Hu k) as Hk. set (u := concentrationUnit m k) in *.
  assert (Hinv : 0 < / u) by (now apply Qinv_lt_0_compat).
  assert (Hle : inject_Z (Z.of_nat n) <= inject_Z (Z.of_nat p)) by (rewrite <- Zle_Qle; lia).
  assert (E : inject_Z (Z.of_nat p - 1) == inject_Z (Z.of_nat p) - 1).
  { unfold Z.sub. rewrite inject_Z_plus. reflexivity. }
  rewrite E in H.
  assert (H' : (inject_Z (Z.of_nat n) - 1) * d <= eps * amount y k) by nra.
  unfold Qdiv.
  assert (E1 : (inject_Z (Z.of_nat n) - 1) * (d * (1 * / u))
               == / u * ((inject_Z (Z.of_nat n) - 1) * d)) by ring.
  assert (E2 : eps * (amount y k * / u) == / u * (eps * amount y k)) by ring.
  rewrite E1, E2. nra.
Qed.

(** For a reaction in which species [k] stands on one side, with
    [(order - 1) * d <= eps * y[k]], the change of the net rate under
    [y[k] += d] misses [d] times the analytic derivative by at most the
    fraction [eps] of itself, on the side of the change. *)
Lemma reaction_error_tame m k d y r eps :
  (k < length y)%nat -> 0 < d -> positiveUnits m -> nonnegative y -> 0 <= eps ->
  oneSided r k ->
  inject_Z (Z.of_nat (orderOf r k) - 1) * d <= eps * amount y k ->
  tame eps
       (reactionRate m (addAt k d y) r - reactionRate m y r - d * dReactionRate m y k r)
       (reactionRate m (addAt k d y) r - reactionRate m y r).
Proof.
  intros Hk Hd Hu Hy Heps Hside Hord.
  assert (Hd0 : 0 <= d) by lra.
  pose proof (amount_nonneg y k Hy) as Hyk.
  destruct (Qeq_dec (amount y k) 0) as [Hz|Hnz].
  - (* nothing of species k: the order is one at most and the step is exact *)
    assert (Hp : (orderOf r k <= 1)%nat).
    { rewrite Hz in Hord.
      assert (Hq : inject_Z (Z.of_nat (orderOf r k) - 1) <= 0) by nra.
      change 0 with (inject_Z 0) in Hq. rewrite <- Zle_Qle in Hq. lia. }
    unfold orderOf in Hp.
    apply tame_exact; [exact Heps|].
    rewrite (reactionRate_addAt m k d y r Hk) by lia. ring.
  - assert (Hpos : 0 < amount y k) by (destruct (Qlt_le_dec 0 (amount y k)); [assumption | lra]).
    assert (Hx : 0 < level m k y).
    { unfold level, concentration, Qdiv.
      apply Qmult_lt_0_compat; [exact Hpos | apply Qinv_lt_0_compat, Hu]. }
    assert (Hbound : forall side, (occurrences k side <= orderOf r k)%nat ->
              let P := concentrationProduct m y side in
              let P' := concentrationProduct m (addAt k d y) side in
              let D := dConcentrationProduct m y k side in
              0 <= P' - P /\ 0 <= P' - P - d * D /\ P' - P - d * D <= eps * (P' - P)).
    { intros side Hocc. cbn zeta.
      destruct (product_invariants m k d y Hk Hd0 Hu Hy side) as (H0 & H1 & H2 & _).
      pose proof (product_error_bound m k d y Hk Hd0 Hu Hy eps side Hx Heps) as H3.
      split; [lra | split; [lra|]]. apply H3.
      apply (level_shift_condition m k d y _ (orderOf r k) eps); assumption. }
    unfold reactionRate, forwardRate, reverseRate, dReactionRate.
    destruct (Hbound (reactants r) ltac:(unfold orderOf; lia)) as (F1 & F2 & F3).
    destruct (Hbound (products r) ltac:(unfold orderOf; lia)) as (R1 & R2 & R3).
    set (Pf := concentrationProduct m y (reactants r)) in *.
    set (Pf' := concentrationProduct m (addAt k d y) (reactants r)) in *.
    set (Df := dConcentrationProduct m y k (reactants r)) in *.
    set (Pr := concentrationProduct m y (products r)) in *.
    set (Pr' := concentrationProduct m (addAt k d y) (products r)) in *.
    set (Dr := dConcentrationProduct m y k (products r)) in *.
    assert (Tf : tame eps (Pf' - Pf - d * Df) (Pf' - Pf)) by (left; auto).
    assert (Tr : tame eps (Pr' - Pr - d * Dr) (Pr' - Pr)) by (left; auto).
    assert (Forward : tame eps (k_forward r * Pf' - k_forward r * Pf - d * (k_forward r * Df))
                           (k_forward r * Pf' - k_forward r * Pf)).
    { eapply tame_wd; [| |apply (tame_scale eps (k_forward r) _ _ Heps Tf)]; ring. }
    destruct Hside as [Hs|[Hs|Hs]].
    + (* species k is no product *)
      assert (E1 : Pr' = Pr)
        by (unfold Pr', Pr; now apply concentrationProduct_addAt_absent).
      assert (E2 : Dr == 0) by (unfold Dr; now apply dConcentrationProduct_absent).
      destruct (reversible r);
        (eapply tame_wd; [| |exact Forward]; [rewrite ?E1, ?E2; ring | rewrite ?E1; ring]).
    + (* the reaction is irreversible *)
      rewrite Hs. eapply tame_wd; [| |exact Forward]; ring.
    + (* species k is no reactant *)
      assert (E1 : Pf' = Pf)
        by (unfold Pf', Pf; now apply concentrationProduct_addAt_absent).
      assert (E2 : Df == 0) by (unfold Df; now apply dConcentrationProduct_absent).
      destruct (reversible r).
      * eapply tame_wd; [| |apply (tame_scale eps (- k_reverse r) _ _ Heps Tr)];
          rewrite ?E1, ?E2; ring.
      * apply tame_exact; [exact Heps|]. rewrite E1, E2. ring.
Qed.

(** Over reactions whose contributions to a row all point the same way
    the errors add up within the same fraction. *)
Lemma stoichSum_tame_up (eps : Q) (i : nat) (E A : Reaction -> Q) (rs : list Reaction) :
  (forall r, In r rs ->
     0 <= inject_Z (stoich r i) * A r /\ 0 <= inject_Z (stoich r i) * E r /\
     inject_Z (stoich r i) * E r <= eps * (inject_Z (stoich r i) * A r)) ->
  0 <= stoichSum rs (List.map A rs) i /\ 0 <= stoichSum rs (List.map E rs) i /\
  stoichSum rs (List.map E rs) i <= eps * stoichSum rs (List.map A rs) i.
Proof.
  induction rs as [|r rs IH]; intros H; cbn [List.map stoichSum]; [repeat split; lra|].
  destruct IH as (I1 & I2 & I3); [intros r0 Hr0; apply H; now right|].
  destruct (H r (or_introl eq_refl)) as (T1 & T2 & T3).
  repeat split; lra.
Qed.

Lemma stoichSum_tame_down (eps : Q) (i : nat) (E A : Reaction -> Q) (rs : list Reaction) :
  (forall r, In r rs ->
     inject_Z (stoich r i) * A r <= 0 /\
     eps * (inject_Z (stoich r i) * A r) <= inject_Z (stoich r i) * E r /\
     inject_Z (stoich r i) * E r <= 0) ->
  stoichSum rs (List.map A rs) i <= 0 /\
  eps * stoichSum rs (List.map A rs) i <= stoichSum rs (List.map E rs) i /\
  stoichSum rs (List.map E rs) i <= 0.
Proof.
  induction rs as [|r rs IH]; intros H; cbn [List.map stoichSum]; [repeat split; lra|].
  destruct IH as (I1 & I2 & I3); [intros r0 Hr0; apply H; now right|].
  destruct (H r (or_introl eq_refl)) as (T1 & T2 & T3).
  repeat split; lra.
Qed.

Lemma stoichSum_tame (eps : Q) (i : nat) (E A : Reaction -> Q) (rs : list Reaction) :
  0 <= eps ->
  (forall r, In r rs -> tame eps (E r) (A r)) ->
  (forall r, In r rs -> 0 <= inject_Z (stoich r i) * A r) \/
  (forall r, In r rs -> inject_Z (stoich r i) * A r <= 0) ->
  tame eps (stoichSum rs (List.map E rs) i) (stoichSum rs (List.map A rs) i).
Proof.
  intros Heps Ht Hsign.
  assert (Hstep : forall r, In r rs ->
            tame eps (inject_Z (stoich r i) * E r) (inject_Z (stoich r i) * A r))
    by (intros r Hr; apply tame_scale; auto).
  destruct Hsign as [Hs|Hs].
  - left. apply stoichSum_tame_up. intros r Hr.
    pose proof (Hs r Hr) as H0.
    destruct (Hstep r Hr) as [(T1 & T2 & T3)|(T1 & T2 & T3)]; repeat split; nra.
  - right. apply stoichSum_tame_down. intros r Hr.
    pose proof (Hs r Hr) as H0.
    destruct (Hstep r Hr) as [(T1 & T2 & T3)|(T1 & T2 & T3)]; repeat split; nra.
Qed.

End EngineFacts.

(** ** The Jacobian check (lines 236-258) *)

Module JacobianCheck.

Import Engine EngineFacts.
Local Open Scope Q_scope.

(** Line 239: [dN = .000001 * sum(rxnSystem0.y)]. *)
Definition dN (y : list Q) : Q := (1 # 1000000) * Py.sum y.

(** Lines 236-237: the residual at the unperturbed state, with a zero
    derivative vector. *)
Definition dydt0 (m : Model) (y : list Q) : list Q :=
  fst (residual m 0%R y (Py.zeros (length y))).

(** Lines 243-247: for each index, perturb [y[i]] in place, record the
    residual, and take the perturbation back.  Returns the recorded residuals
    and the state vector as the loop leaves it. *)
Fixpoint perturbedResiduals (m : Model) (d : Q) (count i : nat) (y : list Q)
  : list (list Q) * list Q :=
  match count with
  | O => ([], y)
  | S count' =>
      let y1 := addAt i d y in
      let f := fst (residual m 0%R y1 (Py.zeros (length y1))) in
      let y2 := addAt i (- d) y1 in
      let '(fs, y3) := perturbedResiduals m d count' (S i) y2 in
      (f :: fs, y3)
  end.

(** Line 255: [jacobian[i, j] = (dydt[j][i] - dydt0[i]) / dN].  Both
    residuals are numpy floats: where [dN] is zero the perturbation changes
    nothing, the division is [0.0 / 0.0], and the entry is nan ([None]). *)
Definition finiteDifference (dydt : list (list Q)) (f0 : list Q) (d : Q) (i j : nat)
  : option Q :=
  if Qeq_bool d 0 then None
  else Some ((nth i (nth j dydt []) 0 - nth i f0 0) / d).

(** The finite-difference Jacobian the test builds at state [y]. *)
Definition numericalJacobian (m : Model) (y : list Q) (i j : nat) : option Q :=
  finiteDifference (fst (perturbedResiduals m (dN y) (numCoreSpecies m) 0 y))
                   (dydt0 m y) (dN y) i j.

(** Line 250: [solverJacobian = rxnSystem0.jacobian(0.0, rxnSystem0.y, dydt0, 0.0)],
    at the state vector the perturbation loop left behind. *)
Definition solverJacobian (m : Model) (y : list Q) : list (list Q) :=
  jacobian m 0%R (snd (perturbedResiduals m (dN y) (numCoreSpecies m) 0 y))
           (dydt0 m y) 0.

(** Lines 256-258: the assertion on entry [(i, j)]; a nan compares equal
    to nothing and lies within no tolerance, so the assertion fails on it. *)
Definition entryCheck (m : Model) (y : list Q) (i j : nat) : bool :=
  match numericalJacobian m y i j with
  | Some fd =>
      Py.assertAlmostEqual fd (entry (solverJacobian m y) i j) (Qabs ((1 # 10000) * fd))
  | None => false
  end.

(** Lines 253-258: the two nested loops over the species. *)
Definition jacobianCheck (m : Model) (y : list Q) : bool :=
  forallb (fun i => forallb (entryCheck m y i) (seq 0 (numCoreSpecies m)))
          (seq 0 (numCoreSpecies m)).

(** A state vector of the model: one non-negative amount per core species. *)
Definition validState (m : Model) (y : list Q) : Prop :=
  length y = numCoreSpecies m /\ Forall (fun x => 0 <= x) y.

(** The change of the net rate of a reaction under the perturbation of
    [y[k]]. *)
Definition rateChange (m : Model) (y : list Q) (k : nat) (r : Reaction) : Q :=
  reactionRate m (addAt k (dN y) y) r - reactionRate m y r.

(** The perturbation is small against [y[k]] for the order of every
    reaction in species [k], and [k] stands on one side of each. *)
Definition resolved (m : Model) (y : list Q) (k : nat) : Prop :=
  forall r, In r (coreReactions m) ->
    oneSided r k /\
    inject_Z (Z.of_nat (orderOf r k) - 1) * dN y <= (1 # 10000) * amount y k.

(** The reactions' changes enter row [i] with one sign: they do not
    cancel. *)
Definition noCancellation (m : Model) (y : list Q) (i k : nat) : Prop :=
  (forall r, In r (coreReactions m) -> 0 <= inject_Z (stoich r i) * rateChange m y k r) \/
  (forall r, In r (coreReactions m) -> inject_Z (stoich r i) * rateChange m y k r <= 0).

(** Lines 145-218 and 221: the ten reactions of [rxnList], species given by
    their index in [coreSpecies = [CH4, CH3, C2H6, C2H5, H2]]; lines 228-232:
    the initial mole fractions. *)
Definition CH4 : nat := 0.
Definition CH3 : nat := 1.
Definition C2H6 : nat := 2.
Definition C2H5 : nat := 3.
Definition H2 : nat := 4.

Definition rxnList : list (list nat * list nat) :=
  [ ([C2H6], [CH3; CH3]);
    ([CH3; CH3], [C2H6]);
    ([C2H6; CH3], [C2H5; CH4]);
    ([C2H5; CH4], [C2H6; CH3]);
    ([C2H5; CH4], [CH3; CH3; CH3]);
    ([CH3; CH3; CH3], [C2H5; CH4]);
    ([C2H6; CH3; CH3], [C2H5; C2H5; H2]);
    ([C2H5; C2H5; H2], [C2H6; CH3; CH3]);
    ([C2H6; C2H6], [CH3; CH4; C2H5]);
    ([CH3; CH4; C2H5], [C2H6; C2H6]) ].

Definition initialMoleFractions : list Q :=
  [2 # 10; 1 # 10; 35 # 100; 15 # 100; 2 # 10].

(** Lines 221-235: the reactor of one pass of the loop, built from a
    single reaction; its rate coefficients, its reversibility and the gas
    volume come from classes that are missing and are left open. *)
Definition singleReactionModel (sides : list nat * list nat) (rev : bool) (kf kr V : Q)
  : Model :=
  mkModel [Gas; Gas; Gas; Gas; Gas] [mkReaction (fst sides) (snd sides) rev kf kr] V 0 0.

Lemma zeros_nth n i : nth i (Py.zeros n) 0 = 0.
Proof. unfold Py.zeros. apply nth_repeat. Qed.

Lemma zeros_length n : length (Py.zeros n) = n.
Proof. unfold Py.zeros. apply repeat_length. Qed.

Lemma dydt0_nth m y i :
  length y = numCoreSpecies m -> (i < numCoreSpecies m)%nat ->
  nth i (dydt0 m y) 0 == - rateTerm m y i.
Proof.
  intros Hlen Hi. unfold dydt0.
  rewrite residual_nth by (rewrite ?zeros_length; lia).
  rewrite zeros_nth. ring.
Qed.

(** The loop keeps the state vector up to [==] and records, at position [j],
    the residual of the state perturbed at index [i0 + j]. *)
Lemma perturbedResiduals_spec m d y : length y = numCoreSpecies m ->
  forall count i0 y', veq y' y ->
  veq (snd (perturbedResiduals m d count i0 y')) y /\
  forall j i, (j < count)%nat -> (i < numCoreSpecies m)%nat ->
    nth i (nth j (fst (perturbedResiduals m d count i0 y')) []) 0
    == - rateTerm m (addAt (i0 + j) d y) i.
Proof.
  intros Hlen. induction count as [|count IH]; intros i0 y' Hy'.
  - simpl. split; [exact Hy' | intros; lia].
  - cbn [perturbedResiduals].
    assert (Hreset : veq (addAt i0 (- d) (addAt i0 d y')) y).
    { eapply veq_trans; [apply addAt_reset | exact Hy']. }
    specialize (IH (S i0) _ Hreset).
    destruct (perturbedResiduals m d count (S i0) (addAt i0 (- d) (addAt i0 d y')))
      as [fs y3] eqn:E.
    cbn [fst snd] in IH. destruct IH as [IH1 IH2]. cbn [fst snd]. split; [exact IH1|].
    intros [|j] i Hj Hi; cbn [nth].
    + rewrite residual_nth
        by (rewrite ?zeros_length, ?addAt_length, ?(veq_length _ _ Hy'); lia).
      rewrite zeros_nth, Nat.add_0_r.
      rewrite (veq_rateTerm m (addAt i0 d y') (addAt i0 d y) i Hi (veq_addAt _ _ _ _ Hy')).
      ring.
    + rewrite IH2 by lia. now replace (S i0 + j)%nat with (i0 + S j)%nat by lia.
Qed.

(** Away from a zero [dN] the quotient is a number: the change of the
    rate term of row [i], sign reversed, over [dN]. *)
Lemma numericalJacobian_value m y i k :
  length y = numCoreSpecies m -> ~ dN y == 0 ->
  (i < numCoreSpecies m)%nat -> (k < numCoreSpecies m)%nat ->
  exists fd,
    numericalJacobian m y i k = Some fd /\
    fd == (rateTerm m y i - rateTerm m (addAt k (dN y) y) i) / dN y.
Proof.
  intros Hlen Hd Hi Hk. unfold numericalJacobian, finiteDifference.
  destruct (Qeq_bool (dN y) 0) eqn:E; [apply Qeq_bool_iff in E; contradiction|].
  eexists. split; [reflexivity|].
  destruct (perturbedResiduals_spec m (dN y) y Hlen (numCoreSpecies m) 0%nat y (veq_refl y))
    as [_ Hfs].
  rewrite (Hfs k i Hk Hi), (dydt0_nth m y i Hlen Hi). simpl (0 + k)%nat.
  field. exact Hd.
Qed.

Lemma numericalJacobian_nan m y i k : dN y == 0 -> numericalJacobian m y i k = None.
Proof.
  intros Hd. unfold numericalJacobian, finiteDifference.
  apply Qeq_bool_iff in Hd. now rewrite Hd.
Qed.

Lemma solverJacobian_entry m y i k :
  length y = numCoreSpecies m ->
  (i < numCoreSpecies m)%nat -> (k < numCoreSpecies m)%nat ->
  entry (solverJacobian m y) i k == - (dSpeciesRate m y k i * normalization m i).
Proof.
  intros Hlen Hi Hk. unfold solverJacobian.
  destruct (perturbedResiduals_spec m (dN y) y Hlen (numCoreSpecies m) 0%nat y (veq_refl y))
    as [Hend _].
  rewrite entry_jacobian by assumption.
  rewrite (veq_jacobianEntry m _ y 0 i k Hend).
  unfold jacobianEntry. ring.
Qed.

(** The assertion of line 256 is the relative tolerance on a number. *)
Lemma entryCheck_iff m y i k fd :
  numericalJacobian m y i k = Some fd ->
  (entryCheck m y i k = true
   <-> Py.withinRelTol (1 # 10000) fd (entry (solverJacobian m y) i k)).
Proof.
  intros Hfd. unfold entryCheck. rewrite Hfd.
  assert (Ht : Qabs ((1 # 10000) * fd) == (1 # 10000) * Qabs fd).
  { rewrite Qabs_Qmult. reflexivity. }
  assert (H0 : 0 <= Qabs ((1 # 10000) * fd)) by apply Qabs_nonneg.
  rewrite (Py.assertAlmostEqual_nonnegative_delta _ _ _ H0).
  unfold Py.withinRelTol. now rewrite Ht.
Qed.



Lemma sum_from_nonneg (y : list Q) : forall a, 0 <= a -> nonnegative y -> 0 <= fold_left Qplus y a.
Proof.
  induction y as [|b y IH]; intros a Ha Hy; simpl; [exact Ha|].
  inversion Hy; subst. apply IH; [lra | assumption].
Qed.

Lemma dN_positive y : nonnegative y -> ~ Py.sum y == 0 -> 0 < dN y.
Proof.
  intros Hy Hs. unfold dN.
  assert (H0 : 0 <= Py.sum y) by (apply sum_from_nonneg; [lra | exact Hy]).
  assert (H1 : 0 < Py.sum y) by (destruct (Qlt_le_dec 0 (Py.sum y)); [assumption | lra]).
  lra.
Qed.

(** Where the perturbation is resolved and the changes do not cancel the
    quotient is within [1e-4] of the analytic entry. *)
Lemma numericalJacobian_within m y i k :
  validState m y -> ~ Py.sum y == 0 ->
  (i < numCoreSpecies m)%nat -> (k < numCoreSpecies m)%nat ->
  positiveUnits m -> resolved m y k -> noCancellation m y i k ->
  exists fd,
    numericalJacobian m y i k = Some fd /\
    Py.withinRelTol (1 # 10000) fd (entry (solverJacobian m y) i k).
Proof.
  intros [Hlen Hy] Hsum Hi Hk Hu Hres Hsign.
  pose proof (dN_positive y Hy Hsum) as Hd.
  assert (Hd0 : ~ dN y == 0) by lra.
  destruct (numericalJacobian_value m y i k Hlen Hd0 Hi Hk) as (fd & Hfd & Hval).
  exists fd. split; [exact Hfd|].
  set (d := dN y) in *.
  set (A := rateChange m y k).
  set (E := fun r => rateChange m y k r - d * dReactionRate m y k r).
  set (rs := coreReactions m).
  assert (Ht : tame (1 # 10000) (stoichSum rs (List.map E rs) i)
                    (stoichSum rs (List.map A rs) i)).
  { apply stoichSum_tame; [lra | | exact Hsign].
    intros r Hr. destruct (Hres r Hr) as [Hside Hord].
    unfold E, A, rateChange. fold d.
    apply reaction_error_tame; try assumption; [rewrite Hlen; exact Hk | lra]. }
  apply tame_abs in Ht; [|lra].
  assert (HA : speciesRate m (addAt k d y) i - speciesRate m y i
               == stoichSum rs (List.map A rs) i).
  { rewrite !speciesRate_eq by exact Hi. unfold reactionRates. fold rs.
    rewrite (stoichSum_affine (reactionRate m y) (reactionRate m (addAt k d y)) A 1 i rs).
    - ring.
    - intros r _. unfold A, rateChange. fold d. ring. }
  assert (HE : stoichSum rs (List.map A rs) i
               == stoichSum rs (List.map E rs) i + d * dSpeciesRate m y k i).
  { unfold dSpeciesRate. fold rs.
    apply (stoichSum_affine E A (dReactionRate m y k) d i rs).
    intros r _. unfold E, A. cbn beta. ring. }
  set (SA := stoichSum rs (List.map A rs) i) in *.
  set (SE := stoichSum rs (List.map E rs) i) in *.
  set (K := - normalization m i / d).
  assert (E1 : fd == K * SA).
  { rewrite Hval, !rateTerm_eq by exact Hi. unfold K.
    assert (H : speciesRate m (addAt k d y) i == speciesRate m y i + SA) by lra.
    rewrite H. field. exact Hd0. }
  assert (E2 : fd - entry (solverJacobian m y) i k == K * SE).
  { rewrite E1, (solverJacobian_entry m y i k Hlen Hi Hk). unfold K.
    assert (H : dSpeciesRate m y k i == (SA - SE) / d) by (rewrite HE; field; exact Hd0).
    rewrite H. field. exact Hd0. }
  unfold Py.withinRelTol.
  rewrite (Qabs_wd _ _ E2), (Qabs_wd _ _ E1), !Qabs_Qmult.
  pose proof (Qabs_nonneg K) as HK. nra.
Qed.

(** A model of a single reaction has nothing to cancel. *)
Lemma single_reaction_noCancellation m r y i k :
  coreReactions m = [r] -> noCancellation m y i k.
Proof.
  intros Hr. unfold noCancellation. rewrite Hr.
  destruct (Qlt_le_dec (inject_Z (stoich r i) * rateChange m y k r) 0) as [H|H].
  - right. intros r0 [<-|[]]. lra.
  - left. intros r0 [<-|[]]. exact H.
Qed.

(** Where all species are gas species a positive volume is all the rate
    laws divide by. *)
Lemma gas_positiveUnits m :
  Forall (fun p => p = Gas) (speciesPhase m) -> 0 < volume m -> positiveUnits m.
Proof.
  intros Hgas HV i. unfold concentrationUnit, phaseOf.
  assert (E : nth i (speciesPhase m) Gas = Gas).
  { revert i. induction Hgas as [|p ps Hp _ IH]; intros [|i]; simpl; auto. }
  now rewrite E.
Qed.

(** Bimolecular recombination [2 A -> B] in a unit gas volume, with no [A]
    present: a state at which the forward difference misses the Jacobian. *)
Definition recombination : Model :=
  mkModel [Gas; Gas] [mkReaction [0; 0]%nat [1%nat] false 1 0] 1 0 0.

Definition noReactant : list Q := [0; 1].

(** Unimolecular isomerisation [A <=> B] in a gas volume of two units. *)
Definition isomerisation : Model :=
  mkModel [Gas; Gas] [mkReaction [0%nat] [1%nat] true 3 (1 # 2)] 2 0 0.





(** The states of the test: the mole fractions of lines 228-232 scaled to
    a total amount [N]. *)
Definition initialState (N : Q) : list Q := List.map (Qmult N) initialMoleFractions.

Lemma initialState_sum N : Py.sum (initialState N) == N.
Proof. unfold Py.sum, initialState, initialMoleFractions. cbn [List.map fold_left]. ring. Qed.

(** At the mole fractions of the test the whole check of lines 253-258
    passes for each of the ten reactions of [rxnList], whatever its rate
    coefficients, in any positive volume and for any positive total amount:
    no species is below a tenth of the total and no order is above three. *)
Lemma jacobianCheck_on_test_reactions (sides : list nat * list nat) (rev : bool)
    (kf kr V N : Q) :
  In sides rxnList -> 0 < V -> 0 < N ->
  jacobianCheck (singleReactionModel sides rev kf kr V) (initialState N) = true.
Proof.
  intros Hin HV HN.
  set (m := singleReactionModel sides rev kf kr V).
  assert (Hvalid : validState m (initialState N)).
  { split; [reflexivity|].
    unfold initialState, initialMoleFractions. cbn [List.map].
    repeat constructor; nra. }
  assert (Hsum : ~ Py.sum (initialState N) == 0) by (rewrite initialState_sum; lra).
  assert (Hu : positiveUnits m)
    by (apply gas_positiveUnits; [repeat constructor | exact HV]).
  assert (Hres : forall k, (k < 5)%nat -> resolved m (initialState N) k).
  { intros k Hk r [<-|[]].
    assert (Hd : dN (initialState N) == (1 # 1000000) * N)
      by (unfold dN; now rewrite initialState_sum).
    rewrite Hd. clear Hd.
    unfold rxnList in Hin. cbn [In] in Hin.
    repeat (destruct Hin as [<-|Hin];
            [destruct k as [|[|[|[|[|k]]]]]; try lia;
             (split;
              [ first [ left; reflexivity | right; right; reflexivity ]
              | match goal with
                | |- context [inject_Z ?z] =>
                    let v := eval vm_compute in (inject_Z z) in
                    change (inject_Z z) with v
                end;
                unfold amount, initialState, initialMoleFractions;
                cbn [List.map nth CH4 CH3 C2H6 C2H5 H2]; lra ])|]).
    destruct Hin. }
  unfold jacobianCheck. change (numCoreSpecies m) with 5%nat.
  apply forallb_forall. intros i Hi. apply in_seq in Hi.
  apply forallb_forall. intros k Hk. apply in_seq in Hk.
  destruct (numericalJacobian_within m (initialState N) i k Hvalid Hsum
              ltac:(cbn; lia) ltac:(cbn; lia) Hu (Hres k ltac:(lia))
              (single_reaction_noCancellation m _ _ i k eq_refl))
    as (fd & Hfd & Hwithin).
  now apply (entryCheck_iff m _ i k fd Hfd).
Qed.

(** *** The perturbation loop *)

Lemma perturbedResiduals_states m d y : forall count i0 y', veq y' y ->
  veq (snd (perturbedResiduals m d count i0 y')) y /\
  length (fst (perturbedResiduals m d count i0 y')) = count /\
  forall j, (j < count)%nat ->
    exists yj, veq yj (addAt (i0 + j) d y) /\
               nth j (fst (perturbedResiduals m d count i0 y')) []
               = fst (residual m 0%R yj (Py.zeros (length yj))).
Proof.
  induction count as [|count IH]; intros i0 y' Hy'.
  - cbn. split; [exact Hy' | split; [reflexivity | intros; lia]].
  - cbn [perturbedResiduals].
    assert (Hreset : veq (addAt i0 (- d) (addAt i0 d y')) y).
    { eapply veq_trans; [apply addAt_reset | exact Hy']. }
    specialize (IH (S i0) _ Hreset).
    destruct (perturbedResiduals m d count (S i0) (addAt i0 (- d) (addAt i0 d y')))
      as [fs y3] eqn:E.
    cbn [fst snd] in *. destruct IH as (IH1 & IH2 & IH3).
    split; [exact IH1 | split; [cbn [length]; now rewrite IH2|]].
    intros [|j] Hj; cbn [nth].
    + exists (addAt i0 d y'). rewrite Nat.add_0_r. split; [now apply veq_addAt | reflexivity].
    + destruct (IH3 j ltac:(lia)) as (yj & Hyj & Hres).
      exists yj. replace (i0 + S j)%nat with (S i0 + j)%nat by lia. now split.
Qed.

(** X8: lines 243-247 perturb the state vector in place and take each
    perturbation back before the next one: over exact arithmetic the loop
    leaves [y] with the values it found, and the residual it records for
    index [j] is evaluated at a state that differs from [y] in entry [j]
    alone, by [dN]; earlier perturbations do not accumulate. *)
Theorem perturbation_loop_restores_state (m : Model) (d : Q) (y : list Q) :
  length y = numCoreSpecies m ->
  let run := perturbedResiduals m d (numCoreSpecies m) 0 y in
  veq (snd run) y /\
  length (fst run) = numCoreSpecies m /\
  forall j, (j < numCoreSpecies m)%nat ->
    exists yj, veq yj (addAt j d y) /\
               nth j (fst run) [] = fst (residual m 0%R yj (Py.zeros (length yj))).
Proof.
  intros _. cbn zeta.
  exact (perturbedResiduals_states m d y (numCoreSpecies m) 0%nat y (veq_refl y)).
Qed.

Lemma perturbation_loop_restores_state_witness :
  let run := perturbedResiduals isomerisation (dN [1; 3]) (numCoreSpecies isomerisation) 0
                                [1; 3] in
  veq (snd run) [1; 3] /\
  length (fst run) = numCoreSpecies isomerisation /\
  forall j, (j < numCoreSpecies isomerisation)%nat ->
    exists yj, veq yj (addAt j (dN [1; 3]) [1; 3]) /\
               nth j (fst run) []
               = fst (residual isomerisation 0%R yj (Py.zeros (length yj))).
Proof. apply (perturbation_loop_restores_state isomerisation (dN [1; 3]) [1; 3]). reflexivity. Defined.

(** *** The tolerance of the comparison *)

(** X9: the tolerance of lines 256-258 is [1e-4] times the magnitude of the
    finite-difference value, not of the solver's: where the finite-difference
    quotient is zero the assertion passes only for a solver entry that is
    exactly zero; and at a state of zero total amount, where [dN] is zero and
    the quotient is nan, the assertion fails. *)
Theorem zero_difference_quotient_needs_zero_entry (m : Model) (y : list Q) (i j : nat) :
  (dN y == 0 -> numericalJacobian m y i j = None /\ entryCheck m y i j = false) /\
  (forall fd, numericalJacobian m y i j = Some fd -> fd == 0 ->
     (entryCheck m y i j = true <-> entry (solverJacobian m y) i j == 0)).
Proof.
  split.
  - intros Hd. pose proof (numericalJacobian_nan m y i j Hd) as Hnan.
    split; [exact Hnan|]. unfold entryCheck. now rewrite Hnan.
  - intros fd Hfd Hz. unfold entryCheck. rewrite Hfd.
    assert (Hd : Qabs ((1 # 10000) * fd) <= 0).
    { assert (E : Qabs ((1 # 10000) * fd) == Qabs 0) by (apply Qabs_wd; rewrite Hz; ring).
      rewrite E. vm_compute. discriminate. }
    rewrite (Py.assertAlmostEqual_nonpositive_delta _ _ _ Hd), Hz.
    split; intros H; now symmetry.
Qed.

Lemma zero_difference_quotient_needs_zero_entry_witness :
  entryCheck recombination [0; 0] 0 0 = false /\
  (entryCheck recombination noReactant 0 1 = true
   <-> entry (solverJacobian recombination noReactant) 0 1 == 0).
Proof.
  split.
  - apply (zero_difference_quotient_needs_zero_entry recombination [0; 0] 0 0).
    vm_compute. reflexivity.
  - eapply (proj2 (zero_difference_quotient_needs_zero_entry recombination noReactant 0 1)).
    + vm_compute. reflexivity.
    + vm_compute. reflexivity.
Defined.

End JacobianCheck.

(** ** The rate-derivative check (lines 267-350) *)

Module SensitivityCheck.

Import Engine EngineFacts.
Local Open Scope Q_scope.

(** [Arrhenius(A=(..), n=.., Ea=(..), T0=(..))]: the kinetics object of a
    reaction, with its pre-exponential factor [A.value_si]. *)
Record Arrhenius : Type := mkArrhenius {
  A : Q;
  n : Q;
  Ea : Q;
  T0 : Q
}.

(** [Reaction(reactants=[..], products=[..], kinetics=..)], the species
    given by their index in [coreSpecies]. *)
Record ReactionObject : Type := mkReactionObject {
  rxReactants : list nat;
  rxProducts : list nat;
  rxReversible : bool;
  kinetics : Arrhenius
}.

(** Lines 320-321: [A.value_si = A.value_si * (1 + 1e-3)]. *)
Definition perturbA (r : ReactionObject) : ReactionObject :=
  let k := kinetics r in
  mkReactionObject (rxReactants r) (rxProducts r) (rxReversible r)
    (mkArrhenius (A k * (1 + (1 # 1000))) (n k) (Ea k) (T0 k)).

(** Lines 344-345: [A.value_si = A.value_si / (1 + 1e-3)]. *)
Definition resetA (r : ReactionObject) : ReactionObject :=
  let k := kinetics r in
  mkReactionObject (rxReactants r) (rxProducts r) (rxReversible r)
    (mkArrhenius (A k / (1 + (1 # 1000))) (n k) (Ea k) (T0 k)).

(** Two reaction objects that differ at most in the representation of the
    value of their pre-exponential factor. *)
Definition sameReaction (r r' : ReactionObject) : Prop :=
  rxReactants r = rxReactants r' /\ rxProducts r = rxProducts r' /\
  rxReversible r = rxReversible r' /\
  A (kinetics r) == A (kinetics r') /\
  n (kinetics r) = n (kinetics r') /\ Ea (kinetics r) = Ea (kinetics r') /\
  T0 (kinetics r) = T0 (kinetics r').

Section Kinetics.

(** The kinetics and thermo classes are external to the reactor: the
    temperature factor [(T/T0)^n exp(-Ea/(R T))] of the modified Arrhenius
    form and the equilibrium constant of a reaction, both at the
    temperature of the test, are taken as given. *)
Variable arrheniusFactor : Q -> Q -> Q -> Q.
Variable getEquilibriumConstant : list nat -> list nat -> Q.

(** The fixed part of the reactor built by [SimpleReactor(T, P, ...)] and
    [initializeModel]: species phases, volume, surface constants. *)
Variable phases : list Phase.
Variable V svr density : Q.

(** [rxn.getRateCoefficient(T, P)]: linear in the pre-exponential factor. *)
Definition getRateCoefficient (r : ReactionObject) : Q :=
  A (kinetics r) * arrheniusFactor (n (kinetics r)) (Ea (kinetics r)) (T0 (kinetics r)).

(** Modelled from the spec: the coefficients [initializeModel] (missing
    with the reactor classes) hands to the rate evaluator: the forward one
    from the kinetics, the reverse one derived from equilibrium. *)
Definition toReaction (r : ReactionObject) : Reaction :=
  mkReaction (rxReactants r) (rxProducts r) (rxReversible r)
    (getRateCoefficient r)
    (getRateCoefficient r / getEquilibriumConstant (rxReactants r) (rxProducts r)).

Definition initializeModel (rxnList : list ReactionObject) : Model :=
  mkModel phases (List.map toReaction rxnList) V svr density.

(** Lines 304-305 and 336-337: [residual(0.0, y, numpy.zeros(y.shape))[0]]
    of a reactor freshly initialised from the reaction list. *)
Definition dfdt (rxnList : list ReactionObject) (y : list Q) : list Q :=
  fst (residual (initializeModel rxnList) 0%R y (Py.zeros (length y))).


(** Line 338: [(dfdt - dfdt0) / dk], element-wise. *)
Definition column (f f0 : list Q) (dk : Q) : list Q :=
  zipWith (fun a b => (a - b) / dk) f f0.

(** Lines 319-345: one iteration of the loop, on the reaction objects the
    list shares with [coreReactions].  Returns column [i] of [dfdk] and the
    reaction list as the iteration leaves it. *)
Definition iteration (dfdt0 y : list Q) (i : nat) (rxnList : list ReactionObject)
  : list Q * list ReactionObject :=
  let k0 := default 0 (getRateCoefficient <$> rxnList !! i) in
  let rxnList1 := alter perturbA i rxnList in
  let dk := default 0 (getRateCoefficient <$> rxnList1 !! i) - k0 in
  let col := column (dfdt rxnList1 y) dfdt0 dk in
  let rxnList2 := alter resetA i rxnList1 in
  (col, rxnList2).

(** Lines 318-345: the loop over [range(len(rxnList))]; [count] iterations
    starting at index [i]. *)
Fixpoint sensitivityLoop (dfdt0 y : list Q) (count i : nat) (rxnList : list ReactionObject)
  : list (list Q) * list ReactionObject :=
  match count with
  | O => ([], rxnList)
  | S count' =>
      let '(col, rxnList') := iteration dfdt0 y i rxnList in
      let '(cols, rxnList'') := sensitivityLoop dfdt0 y count' (S i) rxnList' in
      (col :: cols, rxnList'')
  end.

(** The columns of [dfdk] and the final reaction list of the whole check. *)
Definition sensitivityCheck (rxnList : list ReactionObject) (y : list Q)
  : list (list Q) * list ReactionObject :=
  sensitivityLoop (dfdt rxnList y) y (length rxnList) 0 rxnList.

(** The quotient the validation asks for: reaction [j]'s pre-exponential
    factor is perturbed by the relative amount [1e-3], the rate term of the
    residual row [i] is re-evaluated, and its change is divided by the
    change [dk] of the rate coefficient. *)
Definition dk (rxnList : list ReactionObject) (j : nat) : Q :=
  default 0 (getRateCoefficient <$> alter perturbA j rxnList !! j)
  - default 0 (getRateCoefficient <$> rxnList !! j).


(** *** The round trip of the pre-exponential factor *)

Lemma sameReaction_refl r : sameReaction r r.
Proof. unfold sameReaction. repeat split; reflexivity. Qed.

Lemma resetA_perturbA r : sameReaction (resetA (perturbA r)) r.
Proof.
  unfold sameReaction, resetA, perturbA. cbn.
  repeat split; try reflexivity. field.
Qed.

Lemma alter_reset_perturb (i : nat) (rxnList : list ReactionObject) :
  Forall2 sameReaction (alter resetA i (alter perturbA i rxnList)) rxnList.
Proof.
  revert i; induction rxnList as [|r rs IH]; intros [|i]; cbn.
  - constructor.
  - constructor.
  - constructor; [apply resetA_perturbA|].
    clear. induction rs; constructor; [apply sameReaction_refl | assumption].
  - constructor; [apply sameReaction_refl | apply IH].
Qed.

Lemma sameReaction_trans r1 r2 r3 :
  sameReaction r1 r2 -> sameReaction r2 r3 -> sameReaction r1 r3.
Proof.
  unfold sameReaction.
  intros (a1 & a2 & a3 & a4 & a5 & a6 & a7) (b1 & b2 & b3 & b4 & b5 & b6 & b7).
  repeat split; try congruence. now rewrite a4.
Qed.

Lemma sameReactions_trans (l1 l2 l3 : list ReactionObject) :
  Forall2 sameReaction l1 l2 -> Forall2 sameReaction l2 l3 -> Forall2 sameReaction l1 l3.
Proof.
  intros H; revert l3; induction H; intros l3 H3; inversion H3; subst; constructor.
  - eapply sameReaction_trans; eassumption.
  - now apply IHForall2.
Qed.

Lemma iteration_snd dfdt0 y i rxnList :
  snd (iteration dfdt0 y i rxnList) = alter resetA i (alter perturbA i rxnList).
Proof. reflexivity. Qed.

Lemma sensitivityLoop_restores dfdt0 y count : forall i rxnList,
  Forall2 sameReaction (snd (sensitivityLoop dfdt0 y count i rxnList)) rxnList.
Proof.
  induction count as [|count IH]; intros i rxnList; cbn [sensitivityLoop].
  - cbn. clear. induction rxnList; constructor; [apply sameReaction_refl | assumption].
  - destruct (iteration dfdt0 y i rxnList) as [col rxnList'] eqn:E.
    specialize (IH (S i) rxnList').
    destruct (sensitivityLoop dfdt0 y count (S i) rxnList') as [cols rxnList''].
    cbn [snd] in *.
    eapply sameReactions_trans; [exact IH|].
    replace rxnList' with (snd (iteration dfdt0 y i rxnList)) by (now rewrite E).
    rewrite iteration_snd. apply alter_reset_perturb.
Qed.

(** *** The quotient in closed form *)
















(** *** The loop of the test against the quotient

    The loop works on reaction objects whose pre-exponential factors have
    been reset by earlier iterations, and on the residual itself, which is
    minus the rate term when [dydt] is zero. *)














End Kinetics.








(** C10: in each iteration of the sensitivity loop the pre-exponential
    factor of reaction [i] is multiplied by [1 + 1e-3] (lines 320-321) and, at
    the end of the iteration, divided by [1 + 1e-3] (lines 344-345); over
    exact arithmetic the iteration, and so the whole loop, leaves every
    reaction with the value of its pre-exponential factor (and everything
    else) as it found it. *)
Theorem perturb_reset_round_trip
  (arrheniusFactor : Q -> Q -> Q -> Q) (getEquilibriumConstant : list nat -> list nat -> Q)
  (phases : list Phase) (V svr density : Q)
  (dfdt0 y : list Q) (i : nat) (rxnList : list ReactionObject) :
  let after := snd (iteration arrheniusFactor getEquilibriumConstant phases V svr density
                              dfdt0 y i rxnList) in
  alter perturbA i rxnList !! i = perturbA <$> rxnList !! i /\
  after !! i = (fun r => resetA (perturbA r)) <$> rxnList !! i /\
  (forall r : ReactionObject,
     A (kinetics (perturbA r)) = A (kinetics r) * (1 + (1 # 1000)) /\
     A (kinetics (resetA r)) = A (kinetics r) / (1 + (1 # 1000)) /\
     A (kinetics (resetA (perturbA r))) == A (kinetics r)) /\
  Forall2 sameReaction after rxnList /\
  Forall2 sameReaction
    (snd (sensitivityCheck arrheniusFactor getEquilibriumConstant phases V svr density
                           rxnList y))
    rxnList.
Proof.
  cbn zeta. rewrite iteration_snd.
  split; [apply list_lookup_alter_eq|].
  split; [rewrite !list_lookup_alter_eq; now destruct (rxnList !! i)|].
  split; [intros r; repeat split; try reflexivity; apply resetA_perturbA|].
  split; [apply alter_reset_perturb|].
  apply sensitivityLoop_restores.
Qed.

(** *** The reaction objects after the loop *)

Lemma iteration_at (arrheniusFactor : Q -> Q -> Q -> Q)
    (getEquilibriumConstant : list nat -> list nat -> Q) (phases : list Phase)
    (V svr density : Q) (dfdt0 y : list Q) (pre : list ReactionObject)
    (r : ReactionObject) (rest : list ReactionObject) :
  snd (iteration arrheniusFactor getEquilibriumConstant phases V svr density dfdt0 y
                 (length pre) (pre ++ r :: rest))
  = pre ++ resetA (perturbA r) :: rest.
Proof.
  rewrite iteration_snd.
  replace (length pre) with (length pre + 0)%nat by lia.
  now rewrite !alter_app_r.
Qed.

Lemma sensitivityLoop_at (arrheniusFactor : Q -> Q -> Q -> Q)
    (getEquilibriumConstant : list nat -> list nat -> Q) (phases : list Phase)
    (V svr density : Q) (dfdt0 y : list Q) (rest : list ReactionObject) :
  forall pre : list ReactionObject,
    let run := sensitivityLoop arrheniusFactor getEquilibriumConstant phases V svr density
                               dfdt0 y (length rest) (length pre) (pre ++ rest) in
    snd run = pre ++ List.map (fun r => resetA (perturbA r)) rest /\
    length (fst run) = length rest.
Proof.
  induction rest as [|r rest IH]; intros pre; cbn zeta.
  - cbn. now rewrite app_nil_r.
  - cbn [length sensitivityLoop].
    pose proof (iteration_at arrheniusFactor getEquilibriumConstant phases V svr density
                  dfdt0 y pre r rest) as Hit.
    destruct (iteration arrheniusFactor getEquilibriumConstant phases V svr density dfdt0 y
                        (length pre) (pre ++ r :: rest)) as [col rxnList'].
    cbn [snd] in Hit. subst rxnList'.
    specialize (IH (pre ++ [resetA (perturbA r)])). cbn zeta in IH.
    rewrite length_app, <- app_assoc in IH. cbn [length app] in IH.
    replace (length pre + 1)%nat with (Datatypes.S (length pre)) in IH by lia.
    destruct (sensitivityLoop arrheniusFactor getEquilibriumConstant phases V svr density
                dfdt0 y (length rest) (Datatypes.S (length pre))
                (pre ++ resetA (perturbA r) :: rest)) as [cols rxnList''].
    cbn [fst snd length List.map] in *. destruct IH as [IH1 IH2].
    rewrite IH1, IH2, <- app_assoc. split; reflexivity.
Qed.

(** X10: lines 318-345 work on the reaction objects that [rxnList] shares with
    [coreReactions]: when the loop is through, every reaction has had its
    pre-exponential factor multiplied by [1 + 1e-3] and divided by [1 + 1e-3]
    exactly once and is otherwise untouched, [dfdk] has one column for each
    reaction, and an iteration leaves the objects of all other reactions
    as they are. *)
Theorem sensitivity_loop_perturbs_each_factor_once
  (arrheniusFactor : Q -> Q -> Q -> Q) (getEquilibriumConstant : list nat -> list nat -> Q)
  (phases : list Phase) (V svr density : Q)
  (dfdt0 y : list Q) (rxnList : list ReactionObject) :
  let run := sensitivityCheck arrheniusFactor getEquilibriumConstant phases V svr density
                              rxnList y in
  snd run = List.map (fun r => resetA (perturbA r)) rxnList /\
  length (fst run) = length rxnList /\
  (forall i j : nat, i <> j ->
     snd (iteration arrheniusFactor getEquilibriumConstant phases V svr density
                    dfdt0 y i rxnList) !! j
     = rxnList !! j).
Proof.
  cbn zeta. unfold sensitivityCheck.
  pose proof (sensitivityLoop_at arrheniusFactor getEquilibriumConstant phases V svr density
                (dfdt arrheniusFactor getEquilibriumConstant phases V svr density rxnList y)
                y rxnList []) as H.
  cbn zeta in H. cbn [length app] in H. destruct H as [H1 H2].
  split; [exact H1 | split; [exact H2|]].
  intros i j Hij. rewrite iteration_snd.
  now rewrite !list_lookup_alter_ne.
Qed.

End SensitivityCheck.

(** ** The residual contract *)

Module ResidualContract.

Import Engine EngineFacts.
Local Open Scope Q_scope.

Lemma finiteEvaluation_spec m :
  finiteEvaluation m = true <->
  forall i, (i < numCoreSpecies m)%nat -> ~ concentrationUnit m i == 0.
Proof.
  unfold finiteEvaluation. rewrite forallb_forall. split.
  - intros H i Hi E.
    assert (Hin : In i (seq 0 (numCoreSpecies m))) by (apply in_seq; lia).
    specialize (H i Hin). apply negb_true_iff in H.
    apply Qeq_bool_iff in E. congruence.
  - intros H i Hin. apply in_seq in Hin. apply negb_true_iff.
    destruct (Qeq_bool (concentrationUnit m i) 0) eqn:E; [|reflexivity].
    apply Qeq_bool_iff in E. exfalso. apply (H i); [lia | exact E].
Qed.

(** The surface model of the test, with unit rate coefficients. *)
Definition adsorption : Model :=
  mkModel [Gas; Surface; Surface]
          [mkReaction [0; 1; 1]%nat [2; 2]%nat true 1 1] 1 10 (272 # 10000000).

(** C7: for a state vector [y] of the model and a derivative vector of the
    same length, [residual(t, y, dydt)] returns a pair [(F, flag)]: [F] has the
    length of [y], with [F[i] = dydt[i] - speciesRate[i] * normalization[i]],
    and [flag] tells the caller whether the evaluation succeeded, which it
    does exactly when no concentration is formed by a division by zero. *)
Theorem residual_returns_vector_and_flag (m : Model) (t : R) (y dydt : list Q) :
  length y = numCoreSpecies m -> length dydt = length y ->
  length (fst (residual m t y dydt)) = length y /\
  (forall i, (i < length y)%nat ->
     nth i (fst (residual m t y dydt)) 0
     = nth i dydt 0 - speciesRate m y i * normalization m i) /\
  (snd (residual m t y dydt) = EvalSuccess \/ snd (residual m t y dydt) = EvalFailure) /\
  (snd (residual m t y dydt) = EvalSuccess <->
   forall i, (i < numCoreSpecies m)%nat -> ~ concentrationUnit m i == 0).
Proof.
  intros Hy Hd. split; [|split; [|split]].
  - unfold residual. cbn [fst]. rewrite zipWith_length, rateTerms_length. lia.
  - intros i Hi. rewrite residual_nth by lia. now rewrite rateTerm_eq by lia.
  - unfold residual. cbn [snd]. destruct (finiteEvaluation m); auto.
  - rewrite <- finiteEvaluation_spec. unfold residual. cbn [snd].
    destruct (finiteEvaluation m); split; intros H; try reflexivity; discriminate.
Qed.

Lemma residual_returns_vector_and_flag_witness :
  length (fst (residual adsorption 0%R [1; 272 # 1000000; 0] [0; 0; 0])) = 3%nat /\
  (forall i, (i < 3)%nat ->
     nth i (fst (residual adsorption 0%R [1; 272 # 1000000; 0] [0; 0; 0])) 0
     = nth i [0; 0; 0] 0
       - speciesRate adsorption [1; 272 # 1000000; 0] i * normalization adsorption i) /\
  (snd (residual adsorption 0%R [1; 272 # 1000000; 0] [0; 0; 0]) = EvalSuccess \/
   snd (residual adsorption 0%R [1; 272 # 1000000; 0] [0; 0; 0]) = EvalFailure) /\
  (snd (residual adsorption 0%R [1; 272 # 1000000; 0] [0; 0; 0]) = EvalSuccess <->
   forall i, (i < numCoreSpecies adsorption)%nat -> ~ concentrationUnit adsorption i == 0).
Proof.
  apply (residual_returns_vector_and_flag adsorption 0%R [1; 272 # 1000000; 0] [0; 0; 0]).
  - reflexivity.
  - reflexivity.
Defined.

End ResidualContract.

(** ** The reactor driver *)

Module Driver.

Import Engine.

(** numpy arrays live in a store and are held by reference. *)
Abbreviation loc := positive.
Abbreviation heap := (gmap positive (list Q)).

(** [y.copy()]: a fresh array with the contents of [l]. *)
Definition copyArray (l : loc) (h : heap) : heap * loc :=
  let c := fresh (dom h) in (<[c := default [] (h !! l)]> h, c).

(** Reading an array through a reference. *)
Definition readArray (h : heap) (l : loc) : list Q := default [] (h !! l).

(** Modelled from the spec: the termination criteria (the classes
    [TerminationTime] and [TerminationConversion] are imported, not given). *)
Inductive TerminationCriterion : Type :=
  | TerminationTime (value : Q)
  | TerminationConversion (species : nat) (fraction : Q).

(** Modelled from the spec: the reactor conditions, as the constructor
    call of lines 65-71 passes them; the mole fractions and coverages are
    dictionaries keyed by species (here by species index). *)
Record Conditions : Type := mkConditions {
  T : Q;
  initialP : Q;
  initialGasMoleFractions : gmap nat Q;
  initialSurfaceCoverages : gmap nat Q;
  condSurfaceVolumeRatio : Q;
  condSurfaceSiteDensity : Q
}.

(** The callbacks handed to the stepper. *)
Definition ResidualCallback : Type := R -> list Q -> list Q -> list Q * Flag.
Definition JacobianCallback : Type := R -> list Q -> list Q -> Q -> list (list Q).

(** Modelled from the spec: the external stiff stepper, an opaque component
    behind an explicit handle: given the callbacks, its handle, the current
    time and state and a target time, it returns its new handle, the time
    reached and the new state.  [run] stands for a call that comes back; a
    call of [advance] that does not (the stepper reporting that it failed to
    converge) leaves its caller by an exception, which the test method below
    accounts for at the line of the call. *)
Record Stepper : Type := mkStepper {
  handle : Type;
  prepare : handle;
  run : ResidualCallback -> JacobianCallback -> handle -> R -> list Q -> R
        -> handle * (R * list Q)
}.

(** Modelled from the spec: the reactor object (its classes are missing).
    [y] is a reference to the state array. *)
Record Reactor (S : Stepper) : Type := mkReactor {
  conditions : Conditions;
  termination : list TerminationCriterion;
  model : Model;
  y : loc;
  t : R;
  coreReactionRates : list Q;
  coreSpeciesRates : list Q;
  stepperHandle : handle S
}.

Arguments mkReactor {S}.
Arguments conditions {S}.
Arguments termination {S}.
Arguments model {S}.
Arguments y {S}.
Arguments t {S}.
Arguments coreReactionRates {S}.
Arguments coreSpeciesRates {S}.
Arguments stepperHandle {S}.

Section Reactor.

Variable S : Stepper.

(** Physics outside the core: the gas volume and the initial amounts that
    follow from the reactor conditions. *)
Variable gasVolume : Conditions -> Q.
Variable initialAmounts : Conditions -> list Phase -> list Q.

(** Modelled from the spec: [initializeModel] builds the index, allocates
    and populates the state vector from the conditions and prepares the
    stepper. *)
Definition initializeModel (c : Conditions) (term : list TerminationCriterion)
    (coreSpecies : list Phase) (rxns : list Reaction) (h : heap)
  : heap * Reactor S :=
  let m := mkModel coreSpecies rxns (gasVolume c)
                   (condSurfaceVolumeRatio c) (condSurfaceSiteDensity c) in
  let l := fresh (dom h) in
  (<[l := initialAmounts c coreSpecies]> h,
   mkReactor c term m l 0%R
             (Py.zeros (length rxns)) (Py.zeros (length coreSpecies)) (prepare S)).

(** Modelled from the spec: [advance(targetTime)] drives the stepper to the
    target time, overwrites the state array in place and caches the rates at
    the new state. *)
Definition advance (targetTime : R) (w : heap * Reactor S) : heap * Reactor S :=
  let '(h, r) := w in
  let m := model r in
  let '(hd, (t', y')) :=
    run S (residual m) (jacobian m) (stepperHandle r) (t r) (readArray h (y r)) targetTime in
  (<[y r := y']> h,
   mkReactor (conditions r) (termination r) m (y r) t'
             (fst (rateEvaluator m y')) (snd (rateEvaluator m y')) hd).

(** What a caller can observe of the trajectory state. *)
Record Observation : Type := mkObservation {
  obsTime : R;
  obsState : list Q;
  obsReactionRates : list Q;
  obsSpeciesRates : list Q
}.

Definition observe (w : heap * Reactor S) : Observation :=
  mkObservation (t (snd w)) (readArray (fst w) (y (snd w)))
                (coreReactionRates (snd w)) (coreSpeciesRates (snd w)).

(** A sequence of [advance] calls, observed after each call. *)
Fixpoint trajectory (targets : list R) (w : heap * Reactor S) : list Observation :=
  match targets with
  | [] => []
  | target :: targets' =>
      let w' := advance target w in observe w' :: trajectory targets' w'
  end.

(** The world after a sequence of [advance] calls. *)
Definition advanceAll (targets : list R) (w : heap * Reactor S) : heap * Reactor S :=
  fold_left (fun w target => advance target w) targets w.

(** A history kept without copying: the references handed out after each
    call (what the comment of lines 87-88 warns against). *)
Fixpoint aliasHistory (targets : list R) (w : heap * Reactor S) : list loc :=
  match targets with
  | [] => []
  | target :: targets' =>
      let w' := advance target w in y (snd w') :: aliasHistory targets' w'
  end.

(** The state the stepper leaves at the end of a call. *)
Definition steppedState (targetTime : R) (w : heap * Reactor S) : list Q :=
  snd (snd (run S (residual (model (snd w))) (jacobian (model (snd w)))
                (stepperHandle (snd w)) (t (snd w))
                (readArray (fst w) (y (snd w))) targetTime)).

(** The time the stepper reports at the end of a call. *)
Definition steppedTime (targetTime : R) (w : heap * Reactor S) : R :=
  fst (snd (run S (residual (model (snd w))) (jacobian (model (snd w)))
                (stepperHandle (snd w)) (t (snd w))
                (readArray (fst w) (y (snd w))) targetTime)).

(** The handle the stepper hands back at the end of a call. *)
Definition steppedHandle (targetTime : R) (w : heap * Reactor S) : handle S :=
  fst (run S (residual (model (snd w))) (jacobian (model (snd w)))
           (stepperHandle (snd w)) (t (snd w))
           (readArray (fst w) (y (snd w))) targetTime).

(** *** Frame of [advance] *)

Lemma advance_fields targetTime (h : heap) (r : Reactor S) :
  let w' := advance targetTime (h, r) in
  conditions (snd w') = conditions r /\ termination (snd w') = termination r /\
  model (snd w') = model r /\ y (snd w') = y r /\
  fst w' = <[y r := steppedState targetTime (h, r)]> h /\
  coreReactionRates (snd w') = reactionRates (model r) (steppedState targetTime (h, r)) /\
  coreSpeciesRates (snd w') = speciesRates (model r) (steppedState targetTime (h, r)).
Proof.
  unfold advance, steppedState. cbn [fst snd].
  destruct (run S (residual (model r)) (jacobian (model r)) (stepperHandle r) (t r)
                (readArray h (y r)) targetTime) as [hd [t' y']].
  cbn. repeat split; reflexivity.
Qed.

Lemma advance_time targetTime (h : heap) (r : Reactor S) :
  t (snd (advance targetTime (h, r))) = steppedTime targetTime (h, r) /\
  stepperHandle (snd (advance targetTime (h, r))) = steppedHandle targetTime (h, r).
Proof.
  unfold advance, steppedTime, steppedHandle. cbn [fst snd].
  destruct (run S (residual (model r)) (jacobian (model r)) (stepperHandle r) (t r)
                (readArray h (y r)) targetTime) as [hd [t' y']].
  cbn. split; reflexivity.
Qed.

Lemma advance_y targetTime (w : heap * Reactor S) :
  y (snd (advance targetTime w)) = y (snd w).
Proof. destruct w as [h r]. apply (advance_fields targetTime h r). Qed.

Lemma advance_read targetTime (w : heap * Reactor S) :
  readArray (fst (advance targetTime w)) (y (snd w)) = steppedState targetTime w.
Proof.
  destruct w as [h r].
  destruct (advance_fields targetTime h r) as (_ & _ & _ & _ & Hh & _).
  cbn [fst snd] in *. rewrite Hh. unfold readArray. now rewrite lookup_insert_eq.
Qed.

Lemma advance_other targetTime (w : heap * Reactor S) (l : loc) :
  l <> y (snd w) -> fst (advance targetTime w) !! l = fst w !! l.
Proof.
  destruct w as [h r]. intros Hl.
  destruct (advance_fields targetTime h r) as (_ & _ & _ & _ & Hh & _).
  cbn [fst snd] in *. rewrite Hh. now rewrite lookup_insert_ne.
Qed.

Lemma advanceAll_y targets : forall w : heap * Reactor S,
  y (snd (advanceAll targets w)) = y (snd w).
Proof.
  unfold advanceAll. induction targets as [|a targets IH]; intros w; cbn; [reflexivity|].
  rewrite IH. apply advance_y.
Qed.

(** Every reference of a history kept without copying is the reactor's own
    array. *)
Lemma aliasHistory_all targets : forall w : heap * Reactor S,
  Forall (fun l => l = y (snd w)) (aliasHistory targets w).
Proof.
  induction targets as [|a targets IH]; intros w; cbn; constructor.
  - apply advance_y.
  - specialize (IH (advance a w)). rewrite advance_y in IH. exact IH.
Qed.

(** *** Runs from the same conditions *)

(** Two worlds that differ only in where the state array lives and in what
    else the store holds. *)
Definition sameReactor (w1 w2 : heap * Reactor S) : Prop :=
  conditions (snd w1) = conditions (snd w2) /\
  termination (snd w1) = termination (snd w2) /\
  model (snd w1) = model (snd w2) /\
  t (snd w1) = t (snd w2) /\
  coreReactionRates (snd w1) = coreReactionRates (snd w2) /\
  coreSpeciesRates (snd w1) = coreSpeciesRates (snd w2) /\
  stepperHandle (snd w1) = stepperHandle (snd w2) /\
  readArray (fst w1) (y (snd w1)) = readArray (fst w2) (y (snd w2)).

Lemma initializeModel_same c term coreSpecies rxns (h1 h2 : heap) :
  sameReactor (initializeModel c term coreSpecies rxns h1)
              (initializeModel c term coreSpecies rxns h2).
Proof.
  unfold sameReactor, initializeModel, readArray. cbn.
  repeat split. now rewrite !lookup_insert_eq.
Qed.

Lemma advance_same targetTime (w1 w2 : heap * Reactor S) :
  sameReactor w1 w2 ->
  sameReactor (advance targetTime w1) (advance targetTime w2) /\
  observe (advance targetTime w1) = observe (advance targetTime w2).
Proof.
  destruct w1 as [h1 r1], w2 as [h2 r2].
  intros (Hc & Hte & Hm & Ht & Hrr & Hsr & Hh & Hy). cbn [fst snd] in *.
  unfold sameReactor, observe, advance.
  rewrite Hm, Ht, Hh, Hy, Hc, Hte.
  destruct (run S (residual (model r2)) (jacobian (model r2)) (stepperHandle r2) (t r2)
                (readArray h2 (y r2)) targetTime) as [hd [t' y']].
  cbn. unfold readArray. rewrite !lookup_insert_eq. cbn.
  repeat split; reflexivity.
Qed.

Lemma trajectory_same targets : forall w1 w2 : heap * Reactor S,
  sameReactor w1 w2 -> trajectory targets w1 = trajectory targets w2.
Proof.
  induction targets as [|a targets IH]; intros w1 w2 Hw; cbn; [reflexivity|].
  destruct (advance_same a w1 w2 Hw) as [Hs Ho].
  rewrite Ho. f_equal. now apply IH.
Qed.

Lemma trajectory_rates targets : forall w : heap * Reactor S,
  Forall (fun o => (obsReactionRates o, obsSpeciesRates o)
                   = rateEvaluator (model (snd w)) (obsState o))
         (trajectory targets w).
Proof.
  induction targets as [|a targets IH]; intros w; cbn; constructor.
  - destruct w as [h r].
    pose proof (advance_read a (h, r)) as Hread.
    destruct (advance_fields a h r) as (_ & _ & _ & Hy & _ & Hrr & Hsr).
    unfold observe. cbn [obsReactionRates obsSpeciesRates obsState fst snd] in *.
    rewrite Hy, Hread, Hrr, Hsr. reflexivity.
  - specialize (IH (advance a w)).
    destruct w as [h r].
    destruct (advance_fields a h r) as (_ & _ & Hm & _).
    rewrite Hm in IH. exact IH.
Qed.

Lemma copyArray_fresh (h : heap) (l : loc) (y0 : list Q) :
  h !! l = Some y0 -> snd (copyArray l h) <> l /\ readArray (fst (copyArray l h)) l = y0
                      /\ readArray (fst (copyArray l h)) (snd (copyArray l h)) = y0.
Proof.
  intros Hl. unfold copyArray, readArray. cbn [fst snd].
  assert (Hne : fresh (dom h) <> l).
  { intros E. apply (is_fresh (dom h)). rewrite E. apply elem_of_dom. now exists y0. }
  split; [exact Hne|]. rewrite lookup_insert_ne by exact Hne.
  now rewrite lookup_insert_eq, Hl.
Qed.

End Reactor.

(** A stepper that drives its internal time to the target of every call. *)
Definition reachesTarget (S : Stepper) : Prop :=
  forall (res : ResidualCallback) (jac : JacobianCallback) (hd : handle S)
         (t0 : R) (y0 : list Q) (target : R),
    fst (snd (run S res jac hd t0 y0 target)) = target.

(** A stepper for examples: one explicit Euler step of size [1e-3] per
    call, whatever the target time; its handle counts the calls. *)
Definition eulerStepper : Stepper :=
  mkStepper nat 0%nat
    (fun res jac calls t0 y0 target =>
       (Datatypes.S calls,
        (target,
         zipWith (fun a f => (a - (1 # 1000) * f)%Q) y0
                 (fst (res t0 y0 (Py.zeros (length y0))))))).

Lemma eulerStepper_reachesTarget : reachesTarget eulerStepper.
Proof. intros res jac hd t0 y0 target. reflexivity. Qed.

(** C6: a call to [advance] leaves the reactor conditions, the termination
    criteria and the index (the model) as they were, keeps [y] the same array
    object and overwrites its contents with the stepped state, sets the
    current time [t] to the time the stepper reports (the target time, for a
    stepper that reaches its target), takes the stepper's handle back, caches
    the reaction and species rates of the new state, and touches no other
    array of the store; a copy taken before the call still holds the old
    state, while every reference retained from a sequence of calls is the
    reactor's own array. *)
Theorem advance_overwrites_state_in_place
  (S : Stepper) (targetTime : R) (targets : list R)
  (h : heap) (r : Reactor S) (y0 : list Q) :
  h !! y r = Some y0 ->
  let w' := advance S targetTime (h, r) in
  let ynew := steppedState S targetTime (h, r) in
  conditions (snd w') = conditions r /\ termination (snd w') = termination r /\
  model (snd w') = model r /\
  y (snd w') = y r /\ fst w' = <[y r := ynew]> h /\
  t (snd w') = steppedTime S targetTime (h, r) /\
  (reachesTarget S -> t (snd w') = targetTime) /\
  stepperHandle (snd w') = steppedHandle S targetTime (h, r) /\
  coreReactionRates (snd w') = reactionRates (model r) ynew /\
  coreSpeciesRates (snd w') = speciesRates (model r) ynew /\
  (forall l : loc, l <> y r -> fst w' !! l = h !! l) /\
  (let hc := copyArray (y r) h in
   snd hc <> y r /\
   readArray (fst (advance S targetTime (fst hc, r))) (snd hc) = y0 /\
   readArray (fst (advance S targetTime (fst hc, r))) (y r) = ynew) /\
  Forall (fun l => l = y r) (aliasHistory S targets (h, r)).
Proof.
  intros Hy w' ynew.
  destruct (advance_fields S targetTime h r) as (Hc & Hte & Hm & Hl & Hh & Hrr & Hsr).
  destruct (advance_time S targetTime h r) as [Ht Hhd].
  repeat (split; [assumption|]).
  split; [intros Hreach; fold w' in Ht; rewrite Ht; apply Hreach|].
  repeat (split; [assumption|]).
  split; [intros l Hne; apply (advance_other S targetTime (h, r) l Hne)|].
  split; [|apply (aliasHistory_all S targets (h, r))].
  destruct (copyArray_fresh h (y r) y0 Hy) as (Hne & Hold & Hcopy).
  cbn zeta. split; [exact Hne|]. split.
  - unfold readArray. rewrite (advance_other S targetTime (_, r) _ Hne). exact Hcopy.
  - rewrite (advance_read S targetTime (_, r)). unfold ynew, steppedState. cbn [fst snd].
    rewrite Hold. unfold readArray. now rewrite Hy.
Qed.

(** A world for examples: the surface model of the test, initialised in
    the empty store with one mole of gas over vacant sites. *)
Definition exampleWorld : heap * Reactor eulerStepper :=
  initializeModel eulerStepper (fun _ => 1%Q)
    (fun _ _ => [1; 272 # 1000000; 0]%Q)
    (mkConditions 1000 100000 {[ 0%nat := 1%Q ]} {[ 1%nat := 1%Q ]} 10 (272 # 10000000))
    [] [Gas; Surface; Surface]
    [mkReaction [0; 1; 1]%nat [2; 2]%nat true 1 1] ∅.

Lemma advance_overwrites_state_in_place_witness :
  let h := fst exampleWorld in
  let r := snd exampleWorld in
  let y0 := [1; 272 # 1000000; 0]%Q in
  h !! y r = Some y0 /\ reachesTarget eulerStepper /\
  let w' := advance eulerStepper 1%R (h, r) in
  let ynew := steppedState eulerStepper 1%R (h, r) in
  conditions (snd w') = conditions r /\ termination (snd w') = termination r /\
  model (snd w') = model r /\
  y (snd w') = y r /\ fst w' = <[y r := ynew]> h /\
  t (snd w') = steppedTime eulerStepper 1%R (h, r) /\
  (reachesTarget eulerStepper -> t (snd w') = 1%R) /\
  stepperHandle (snd w') = steppedHandle eulerStepper 1%R (h, r) /\
  coreReactionRates (snd w') = reactionRates (model r) ynew /\
  coreSpeciesRates (snd w') = speciesRates (model r) ynew /\
  (forall l : loc, l <> y r -> fst w' !! l = h !! l) /\
  (let hc := copyArray (y r) h in
   snd hc <> y r /\
   readArray (fst (advance eulerStepper 1%R (fst hc, r))) (snd hc) = y0 /\
   readArray (fst (advance eulerStepper 1%R (fst hc, r))) (y r) = ynew) /\
  Forall (fun l => l = y r) (aliasHistory eulerStepper [1%R; 2%R] (h, r)).
Proof.
  intros h r y0.
  assert (Hy : h !! y r = Some y0) by (vm_compute; reflexivity).
  split; [exact Hy|]. split; [exact eulerStepper_reachesTarget|].
  exact (advance_overwrites_state_in_place eulerStepper 1%R [1%R; 2%R] h r y0 Hy).
Defined.

End Driver.

(** ** The test method [testSolve] (lines 22-350) *)

Module SurfaceTest.

Import Engine Driver.
Local Open Scope Q_scope.

(** Line 58: [coreSpecies = [H2, X, HX]]; a species is referred to by its
    index in this list.  [H2] is a gas species, [X] (the vacant site) and
    [HX] are surface species. *)
Definition H2 : nat := 0.
Definition X : nat := 1.
Definition HX : nat := 2.
Definition coreSpecies : list Phase := [Gas; Surface; Surface].

(** Lines 51-56: [rxn1 = SurfaceReaction(reactants=[H2, X, X],
    products=[HX, HX], kinetics=SurfaceArrhenius(..))].  The values of its
    two rate coefficients at the reactor temperature come from the kinetics
    and thermo classes and are taken as given. *)
Definition rxn1 (kf kr : Q) : Reaction := mkReaction [H2; X; X] [HX; HX] true kf kr.

(** Lines 60-61. *)
Definition coreReactions (kf kr : Q) : list Reaction := [rxn1 kf kr].

(** Lines 63-71: [T = 1000], [initialP = 1.0e5], pure [H2] gas, pure vacant
    sites, [surfaceVolumeRatio = 1e1 m^-1] and
    [surfaceSiteDensity = 2.72e-9 mol/cm^2] (that is [2.72e-5 mol/m^2]),
    no termination criterion. *)
Definition reactorConditions : Conditions :=
  mkConditions 1000 100000 {[ H2 := 1 ]} {[ X := 1 ]} 10 (272 # 10000000).

(** How an execution of the method can end before its last statement. *)
Inductive Exn : Type := AssertionError | ImportError | NameError | ExternalError.

Inductive Stop : Type :=
  | Returned (line : nat)
  | Raised (line : nat) (e : Exn).

Section Test.

Variable S : Stepper.
Variable gasVolume : Conditions -> Q.
Variable initialAmounts : Conditions -> list Phase -> list Q.
Variables kf kr : Q.

(** [constants.R]. *)
Variable gasConstant : Q.

(** Whether the call of a given line into code outside the method
    (constructors of species, molecules and the reactor, [initializeModel],
    [advance], [import pylab], plotting) raises; for a call inside a loop,
    whether it raises at some pass, which ends the method at that line. *)
Variable libraryRaises : nat -> bool.

(** Whether a check of the code after line 130 would pass. *)
Variable laterCheck : nat -> bool.

(** The local variables of the method ([rxnSystem] is unbound until line
    65), the store, and the lines executed so far. *)
Record Vars : Type := mkVars {
  store : heap;
  rxnSystem : option (Reactor S);
  t_ : list R;
  yRefs : list loc;
  y_ : list (list Q);
  reactionRates_ : list (list Q);
  speciesRates_ : list (list Q);
  V_ : Q
}.

Definition Locals : Type := Vars * list nat.

Definition vars (st : Locals) : Vars := fst st.
Definition executed (st : Locals) : list nat := snd st.

(** Statements: state passing, with an early stop. *)
Definition M (A : Type) : Type := Locals -> Locals * (A + Stop).

Definition ret {A : Type} (a : A) : M A := fun st => (st, inl a).

Definition bind {A B : Type} (m : M A) (k : A -> M B) : M B :=
  fun st =>
    match m st with
    | (st', inl a) => k a st'
    | (st', inr s) => (st', inr s)
    end.

Definition seq_ (m k : M unit) : M unit := bind m (fun _ => k).

Local Notation "m >> k" := (seq_ m k) (at level 62, right associativity).

Definition log (line : nat) (st : Locals) : Locals :=
  (vars st, executed st ++ [line]).

(** Run a statement body on the variables; the record of executed lines
    is out of its reach. *)
Definition update (f : Vars -> Vars) (st : Locals) : Locals :=
  (f (vars st), executed st).

(** A statement of the given line that updates the locals. *)
Definition stmt (line : nat) (f : Vars -> Vars) : M unit :=
  fun st => (update f (log line st), inl tt).

(** A statement whose library call may raise. *)
Definition libraryCall (line : nat) (e : Exn) (f : Vars -> Vars) : M unit :=
  fun st =>
    if libraryRaises line then (log line st, inr (Raised line e))
    else (update f (log line st), inl tt).

(** A statement that mentions a name bound nowhere. *)
Definition unboundName (line : nat) : M unit :=
  fun st => (log line st, inr (Raised line NameError)).

(** [self.assertAlmostEqual(first, second, delta=delta)]. *)
Definition assertAlmostEqual (line : nat) (first second delta : Vars -> Q) : M unit :=
  fun st =>
    if Py.assertAlmostEqual (first (vars st)) (second (vars st)) (delta (vars st))
    then (log line st, inl tt)
    else (log line st, inr (Raised line AssertionError)).

(** An assertion on values the model does not compute. *)
Definition laterAssert (line : nat) : M unit :=
  fun st =>
    if laterCheck line then (log line st, inl tt)
    else (log line st, inr (Raised line AssertionError)).

Definition return_ (line : nat) : M unit :=
  fun st => (log line st, inr (Returned line)).

Definition skip (v : Vars) : Vars := v.

(** [for x in xs: body]; the header line is executed before each iteration
    and once more when the sequence is exhausted. *)
Fixpoint forEach {A : Type} (line : nat) (xs : list A) (body : A -> M unit) : M unit :=
  match xs with
  | [] => stmt line skip
  | x :: xs' => stmt line skip >> body x >> forEach line xs' body
  end.

(** Lines 28-74: species, reaction, reactor and [initializeModel]. *)
Definition setWorld (w : heap * Reactor S) (st : Vars) : Vars :=
  mkVars (fst w) (Some (snd w)) (t_ st) (yRefs st) (y_ st) (reactionRates_ st)
         (speciesRates_ st) (V_ st).

(** A statement body that uses [rxnSystem] (bound from line 73 on). *)
Definition withReactor (f : heap * Reactor S -> Vars -> Vars) (st : Vars) : Vars :=
  match rxnSystem st with
  | Some r => f (store st, r) st
  | None => st
  end.

Definition setup : M unit :=
  libraryCall 28 ExternalError skip >>
  libraryCall 36 ExternalError skip >>
  libraryCall 43 ExternalError skip >>
  libraryCall 51 ExternalError skip >>
  stmt 58 skip >> stmt 59 skip >> stmt 60 skip >> stmt 61 skip >>
  stmt 63 skip >> stmt 64 skip >>
  libraryCall 65 ExternalError skip >>
  libraryCall 73 ExternalError (fun st =>
             setWorld (initializeModel S gasVolume initialAmounts reactorConditions []
                                       coreSpecies (coreReactions kf kr) (store st)) st).

(** Lines 85-91: one pass of the integration loop. *)
Definition sampleBody (t1 : R) : M unit :=
  libraryCall 85 ExternalError (withReactor (fun w st => setWorld (advance S t1 w) st)) >>
  stmt 86 (withReactor (fun w st =>
             mkVars (store st) (rxnSystem st) (t_ st ++ [t (snd w)]) (yRefs st) (y_ st)
                      (reactionRates_ st) (speciesRates_ st) (V_ st))) >>
  stmt 89 (withReactor (fun w st =>
             let hc := copyArray (y (snd w)) (fst w) in
             mkVars (fst hc) (rxnSystem st) (t_ st) (yRefs st ++ [snd hc]) (y_ st)
                      (reactionRates_ st) (speciesRates_ st) (V_ st))) >>
  stmt 90 (withReactor (fun w st =>
             mkVars (store st) (rxnSystem st) (t_ st) (yRefs st) (y_ st)
                      (reactionRates_ st ++ [coreReactionRates (snd w)])
                      (speciesRates_ st) (V_ st))) >>
  stmt 91 (withReactor (fun w st =>
             mkVars (store st) (rxnSystem st) (t_ st) (yRefs st) (y_ st) (reactionRates_ st)
                      (speciesRates_ st ++ [coreSpeciesRates (snd w)])
                      (V_ st))).

(** Lines 76-91. *)
Definition sampling : M unit :=
  stmt 76 skip >>
  stmt 80 skip >> stmt 81 skip >> stmt 82 skip >> stmt 83 skip >>
  forEach 84 Sampling.tlist sampleBody.

(** Lines 94-98: the histories become arrays; [y] is read through the
    retained references. *)
Definition convert : M unit :=
  stmt 94 skip >>
  stmt 95 (fun st =>
             mkVars (store st) (rxnSystem st) (t_ st) (yRefs st)
                      (List.map (readArray (store st)) (yRefs st))
                      (reactionRates_ st) (speciesRates_ st) (V_ st)) >>
  stmt 96 skip >> stmt 97 skip >>
  stmt 98 (withReactor (fun w st =>
             mkVars (store st) (rxnSystem st) (t_ st) (yRefs st) (y_ st) (reactionRates_ st)
                      (speciesRates_ st)
                      (gasConstant * T (conditions (snd w))
                       * Py.sum (List.concat (y_ st))
                       / initialP (conditions (snd w))))).

(** [a[i, j]] of a two-dimensional array. *)
Definition at2 (a : list (list Q)) (i j : nat) : Q := nth j (nth i a []) 0.

(** Lines 102-107: the three flux assertions at sample [i]. *)
Definition fluxBody (i : nat) : M unit :=
  assertAlmostEqual 102
    (fun st => at2 (reactionRates_ st) i 0)
    (fun st => - (1) * at2 (speciesRates_ st) i 0)
    (fun st => (1 # 1000000) * at2 (reactionRates_ st) i 0) >>
  assertAlmostEqual 104
    (fun st => at2 (reactionRates_ st) i 0)
    (fun st => - (1 # 2) * at2 (speciesRates_ st) i 1)
    (fun st => (1 # 1000000) * at2 (reactionRates_ st) i 0) >>
  assertAlmostEqual 106
    (fun st => at2 (reactionRates_ st) i 0)
    (fun st => (1 # 2) * at2 (speciesRates_ st) i 2)
    (fun st => (1 # 1000000) * at2 (reactionRates_ st) i 0).

(** Lines 101-107: [for i in range(t.shape[0])]. *)
Definition fluxChecks : M unit :=
  fun st => forEach 101 (seq 0 (length (t_ (vars st)))) fluxBody st.

(** Line 110: [reactionRates[-1, 0]] is within [1e-2] of zero. *)
Definition equilibriumCheck : M unit :=
  assertAlmostEqual 110
    (fun st => nth 0 (Py.last_item (reactionRates_ st) []) 0)
    (fun _ => 0)
    (fun _ => 1 # 100).

(** Lines 114-127: the plot. *)
Definition plotting : M unit :=
  libraryCall 114 ImportError skip >>
  libraryCall 115 ExternalError skip >> libraryCall 116 ExternalError skip >>
  libraryCall 117 ExternalError skip >> libraryCall 118 ExternalError skip >>
  libraryCall 119 ExternalError skip >> libraryCall 120 ExternalError skip >>
  libraryCall 121 ExternalError skip >> libraryCall 122 ExternalError skip >>
  libraryCall 123 ExternalError skip >> libraryCall 124 ExternalError skip >>
  libraryCall 125 ExternalError skip >> libraryCall 127 ExternalError skip.

(** Lines 22-127: everything before the [return]. *)
Definition prologue : M unit := setup >> sampling >> convert.

Definition beforeReturn : M unit :=
  prologue >> fluxChecks >> equilibriumCheck >> plotting.

(** Lines 136-258: the Jacobian test.  [C2H6], [CH3], [CH4], [C2H5],
    [Arrhenius], [SimpleReactor] and [P] are bound nowhere in the module. *)
Definition jacobianTest : M unit :=
  libraryCall 136 ExternalError skip >>
  stmt 145 skip >>
  unboundName 146 >> unboundName 152 >> unboundName 160 >> unboundName 167 >>
  unboundName 175 >> unboundName 182 >> unboundName 190 >> unboundName 197 >>
  unboundName 205 >> unboundName 212 >>
  forEach 220 (seq 0 10)
    (fun _ =>
       unboundName 221 >> stmt 222 skip >> stmt 223 skip >>
       unboundName 225 >> stmt 234 skip >> stmt 236 skip >>
       stmt 238 skip >> stmt 239 skip >> stmt 240 skip >> stmt 242 skip >>
       forEach 243 (seq 0 5)
         (fun _ => stmt 244 skip >> stmt 245 skip >> stmt 247 skip) >>
       stmt 250 skip >> stmt 252 skip >>
       forEach 253 (seq 0 5)
         (fun _ => forEach 254 (seq 0 5)
                     (fun _ => stmt 255 skip >> laterAssert 256))).

(** Lines 267-350: the rate-derivative test. *)
Definition rateDerivativeTest : M unit :=
  stmt 267 skip >>
  unboundName 268 >> unboundName 274 >> unboundName 281 >>
  unboundName 289 >> stmt 290 skip >> stmt 291 skip >>
  unboundName 293 >> stmt 302 skip >> stmt 304 skip >> stmt 306 skip >>
  stmt 310 skip >> stmt 311 skip >> stmt 312 skip >> stmt 314 skip >> stmt 316 skip >>
  forEach 318 (seq 0 3)
    (fun _ =>
       stmt 319 skip >> stmt 320 skip >> stmt 322 skip >> unboundName 324 >>
       stmt 333 skip >> stmt 336 skip >> stmt 338 skip >> stmt 340 skip >>
       stmt 342 skip >> stmt 344 skip) >>
  forEach 347 (seq 0 5)
    (fun _ => forEach 348 (seq 0 3) (fun _ => laterAssert 349)).

(** The whole method. *)
Definition testSolve : M unit :=
  beforeReturn >> return_ 130 >> jacobianTest >> rateDerivativeTest.

(** The locals on entry, over a given store. *)
Definition entry (h : heap) : Locals :=
  (mkVars h None [] [] [] [] [] 0, []).

(** How the method ends and which lines it executes, from a given store. *)
Definition outcome (h : heap) : unit + Stop := snd (testSolve (entry h)).
Definition executedLines (h : heap) : list nat := executed (fst (testSolve (entry h))).

(** *** Which lines a statement can execute, and where it can stop *)

(** [m] executes lines satisfying [P] only, never returns, and raises at
    such a line if it raises at all. *)
Definition bounded (P : nat -> Prop) (m : M unit) : Prop :=
  forall st,
    (exists ls, executed (fst (m st)) = executed st ++ ls /\ Forall P ls) /\
    match snd (m st) with
    | inl _ => True
    | inr (Raised l _) => P l
    | inr (Returned _) => False
    end.

Lemma bounded_stmt (P : nat -> Prop) line f : P line -> bounded P (stmt line f).
Proof.
  intros HP st. cbn. split; [|exact I].
  exists [line]. split; [reflexivity | now constructor].
Qed.

Lemma bounded_libraryCall (P : nat -> Prop) line e f :
  P line -> bounded P (libraryCall line e f).
Proof.
  intros HP st. unfold libraryCall. destruct (libraryRaises line); cbn;
    (split; [exists [line]; split; [reflexivity | now constructor] | auto]).
Qed.

Lemma bounded_unboundName (P : nat -> Prop) line : P line -> bounded P (unboundName line).
Proof.
  intros HP st. cbn. split; [|exact HP].
  exists [line]. split; [reflexivity | now constructor].
Qed.

Lemma bounded_assertAlmostEqual (P : nat -> Prop) line a b d :
  P line -> bounded P (assertAlmostEqual line a b d).
Proof.
  intros HP st. unfold assertAlmostEqual.
  destruct (Py.assertAlmostEqual _ _ _); cbn;
    (split; [exists [line]; split; [reflexivity | now constructor] | auto]).
Qed.

Lemma bounded_laterAssert (P : nat -> Prop) line : P line -> bounded P (laterAssert line).
Proof.
  intros HP st. unfold laterAssert.
  destruct (laterCheck line); cbn;
    (split; [exists [line]; split; [reflexivity | now constructor] | auto]).
Qed.

Lemma bounded_seq (P : nat -> Prop) m k :
  bounded P m -> bounded P k -> bounded P (m >> k).
Proof.
  intros Hm Hk st. unfold seq_, bind.
  destruct (Hm st) as [(ls & Hls & HP) Hres].
  destruct (m st) as [st' [[]|s]]; cbn in *.
  - destruct (Hk st') as [(ls' & Hls' & HP') Hres']. split; [|exact Hres'].
    exists (ls ++ ls'). rewrite Hls', Hls, app_assoc. split; [reflexivity|].
    apply Forall_app; now split.
  - split; [|exact Hres]. exists ls. now split.
Qed.

Lemma bounded_forEach (P : nat -> Prop) {A : Type} line (xs : list A) body :
  P line -> (forall x, bounded P (body x)) -> bounded P (forEach line xs body).
Proof.
  intros HP Hbody. induction xs as [|x xs IH]; cbn [forEach].
  - now apply bounded_stmt.
  - apply bounded_seq; [now apply bounded_stmt|].
    apply bounded_seq; [apply Hbody | exact IH].
Qed.

Lemma bounded_fluxChecks (P : nat -> Prop) :
  P 101%nat -> P 102%nat -> P 104%nat -> P 106%nat -> bounded P fluxChecks.
Proof.
  intros H1 H2 H4 H6 st. unfold fluxChecks.
  apply bounded_forEach; [exact H1|]. intros i. unfold fluxBody.
  repeat apply bounded_seq; now apply bounded_assertAlmostEqual.
Qed.

Lemma bounded_beforeReturn : bounded (fun l => (l <= 127)%nat) beforeReturn.
Proof.
  unfold beforeReturn, prologue, setup, sampling, sampleBody, convert, equilibriumCheck,
    plotting.
  repeat first
    [ apply bounded_seq
    | apply bounded_stmt
    | apply bounded_libraryCall
    | apply bounded_assertAlmostEqual
    | apply bounded_fluxChecks
    | apply bounded_forEach
    | intros ? ]; lia.
Qed.

(** The method stops at the [return] of line 130 when nothing before it
    has raised, and where the earlier statement raised otherwise; what follows
    line 130 plays no part. *)
Lemma testSolve_cases st :
  testSolve st =
  match beforeReturn st with
  | (st', inl _) => (log 130 st', inr (Returned 130))
  | (st', inr s) => (st', inr s)
  end.
Proof.
  unfold testSolve, seq_, bind, return_.
  destruct (beforeReturn st) as [st' [[]|s]]; reflexivity.
Qed.

(** *** The integration loop collects the trajectory *)

(** The world the reactor is initialised in at line 73, and what the
    driver observes along the sampling times. *)
Definition initialWorld (h : heap) : heap * Reactor S :=
  initializeModel S gasVolume initialAmounts reactorConditions []
                  coreSpecies (coreReactions kf kr) h.

Definition sampled (h : heap) : list Observation :=
  trajectory S Sampling.tlist (initialWorld h).

Lemma sampleBody_run t1 v tr r :
  libraryRaises 85 = false ->
  rxnSystem v = Some r ->
  let w' := advance S t1 (store v, r) in
  let hc := copyArray (y (snd w')) (fst w') in
  exists tr',
    sampleBody t1 (v, tr)
    = ((mkVars (fst hc) (Some (snd w')) (t_ v ++ [t (snd w')]) (yRefs v ++ [snd hc]) (y_ v)
               (reactionRates_ v ++ [coreReactionRates (snd w')])
               (speciesRates_ v ++ [coreSpeciesRates (snd w')]) (V_ v), tr'), inl tt).
Proof.
  intros H85 Hr w' hc.
  destruct v as [h0 rs ts refs ys rrs srs V0]. cbn [rxnSystem] in Hr. subst rs.
  lazy beta iota delta [sampleBody seq_ bind libraryCall stmt update log withReactor setWorld
        vars executed fst snd store rxnSystem t_ yRefs y_ reactionRates_ speciesRates_ V_].
  rewrite H85. eexists. reflexivity.
Qed.

Lemma stmt_seq line f (k : M unit) v tr :
  (stmt line f >> k) (v, tr) = k (f v, tr ++ [line]).
Proof. reflexivity. Qed.

Lemma seq_ok (m k : M unit) st st' :
  m st = (st', inl tt) -> (m >> k) st = k st'.
Proof. unfold seq_, bind. now intros ->. Qed.

(** References kept in [y] so far: allocated, and none is the reactor's
    own array. *)
Definition copiesOf (h : heap) (own : loc) (refs : list loc) : Prop :=
  Forall (fun c => c <> own /\ is_Some (h !! c)) refs.

Lemma copy_keeps (h : heap) (own : loc) (ynew : list Q) (refs : list loc) :
  copiesOf h own refs ->
  let h' := <[own := ynew]> h in
  let hc := copyArray own h' in
  copiesOf (fst hc) own (refs ++ [snd hc]) /\
  List.map (readArray (fst hc)) (refs ++ [snd hc])
  = List.map (readArray h) refs ++ [ynew] /\
  readArray (fst hc) own = ynew.
Proof.
  intros Hrefs h' hc.
  assert (Hown : h' !! own = Some ynew) by (unfold h'; apply lookup_insert_eq).
  destruct (copyArray_fresh h' own ynew Hown) as (Hne & Hold & Hcopy).
  fold hc in Hne, Hold, Hcopy.
  assert (Hfresh : forall c, is_Some (h' !! c) -> c <> snd hc).
  { intros c Hc E. apply (is_fresh (dom h')).
    change (fresh (dom h')) with (snd hc). rewrite <- E. now apply elem_of_dom. }
  assert (Hkeep : forall c, c <> own -> is_Some (h !! c) ->
                    is_Some (fst hc !! c) /\ readArray (fst hc) c = readArray h c).
  { intros c Hc Hs.
    assert (Hs' : is_Some (h' !! c)) by (unfold h'; now rewrite lookup_insert_ne).
    assert (Hcn : c <> snd hc) by (now apply Hfresh).
    unfold hc, copyArray, readArray. cbn [fst snd].
    rewrite lookup_insert_ne by (intros E; apply Hcn; now rewrite <- E).
    unfold h'. rewrite lookup_insert_ne by (intros E; apply Hc; now rewrite <- E).
    split; [exact Hs | reflexivity]. }
  split; [|split; [|exact Hold]].
  - apply Forall_app. split.
    + unfold copiesOf in Hrefs. rewrite Forall_forall in Hrefs. apply Forall_forall.
      intros c Hc. destruct (Hrefs c Hc) as [Hc1 Hc2].
      split; [exact Hc1 | now apply Hkeep].
    + constructor; [|constructor]. split; [exact Hne|].
      unfold hc, copyArray. cbn [fst snd]. rewrite lookup_insert_eq. eauto.
  - rewrite List.map_app. cbn [List.map]. rewrite Hcopy. f_equal.
    unfold copiesOf in Hrefs. rewrite Forall_forall in Hrefs.
    apply List.map_ext_in. intros c Hc.
    assert (Hin : c ∈ refs) by (now apply list_elem_of_In).
    apply Hkeep; now apply Hrefs.
Qed.

Lemma sampling_loop targets : libraryRaises 85 = false -> forall v tr r wp,
  rxnSystem v = Some r -> sameReactor S (store v, r) wp ->
  copiesOf (store v) (y r) (yRefs v) ->
  exists v' tr' r',
    forEach 84 targets sampleBody (v, tr) = ((v', tr'), inl tt) /\
    rxnSystem v' = Some r' /\ y_ v' = y_ v /\ V_ v' = V_ v /\
    t_ v' = t_ v ++ List.map obsTime (trajectory S targets wp) /\
    reactionRates_ v' = reactionRates_ v ++ List.map obsReactionRates (trajectory S targets wp) /\
    speciesRates_ v' = speciesRates_ v ++ List.map obsSpeciesRates (trajectory S targets wp) /\
    List.map (readArray (store v')) (yRefs v')
    = List.map (readArray (store v)) (yRefs v) ++ List.map obsState (trajectory S targets wp).
Proof.
  intros H85. induction targets as [|t1 targets IH]; intros v tr r wp Hr Hsame Hrefs.
  - exists v, (tr ++ [84%nat]), r. cbn [forEach trajectory List.map].
    rewrite !app_nil_r. repeat split; try reflexivity; assumption.
  - cbn [forEach trajectory List.map]. rewrite stmt_seq. change (skip v) with v.
    destruct (sampleBody_run t1 v (tr ++ [84%nat]) r H85 Hr) as [tr1 Hbody].
    rewrite (seq_ok _ _ _ _ Hbody). clear Hbody.
    set (w' := advance S t1 (store v, r)) in *.
    set (hc := copyArray (y (snd w')) (fst w')) in *.
    destruct (advance_same S t1 (store v, r) wp Hsame) as [Hsame' Hobs].
    fold w' in Hsame', Hobs.
    destruct (advance_fields S t1 (store v) r) as (_ & _ & _ & Hy & Hh & _).
    fold w' in Hy, Hh.
    pose proof (copy_keeps (store v) (y r) (steppedState S t1 (store v, r)) (yRefs v) Hrefs)
      as Hcopy.
    cbn zeta in Hcopy. rewrite <- Hh, <- Hy in Hcopy. fold hc in Hcopy.
    destruct Hcopy as (Hrefs' & Hmap & Hown).
    match goal with
    | |- context [forEach 84 targets sampleBody (?v0, tr1)] => set (v1 := v0)
    end.
    assert (Hsame1 : sameReactor S (store v1, snd w') (advance S t1 wp)).
    { destruct Hsame' as (a1 & a2 & a3 & a4 & a5 & a6 & a7 & a8).
      unfold sameReactor. cbn [fst snd store v1]. repeat split; try assumption.
      rewrite <- a8. rewrite Hown.
      rewrite Hy. symmetry. apply (advance_read S t1 (store v, r)). }
    destruct (IH v1 tr1 (snd w') (advance S t1 wp) eq_refl Hsame1 Hrefs')
      as (v' & tr' & r' & Hrun & Hr' & Hy' & HV & Ht & Hrr & Hsr & Hys).
    exists v', tr', r'. rewrite Hrun.
    cbn [t_ reactionRates_ speciesRates_ y_ V_ yRefs store v1] in *.
    rewrite Ht, Hrr, Hsr, Hys, Hmap, <- !app_assoc. cbn [app].
    assert (Eo : observe S w' = observe S (advance S t1 wp)) by exact Hobs.
    rewrite <- Eo. unfold observe. cbn [obsTime obsReactionRates obsSpeciesRates obsState].
    assert (Eread : readArray (fst w') (y (snd w')) = steppedState S t1 (store v, r))
      by (rewrite Hy; apply (advance_read S t1 (store v, r))).
    rewrite Eread.
    repeat split; try reflexivity; assumption.
Qed.

Lemma stmt_run line f v tr : stmt line f (v, tr) = ((f v, tr ++ [line]), inl tt).
Proof. reflexivity. Qed.

Lemma seq_stop (m k : M unit) st st' s :
  m st = (st', inr s) -> (m >> k) st = (st', inr s).
Proof. unfold seq_, bind. now intros ->. Qed.

Lemma libraryCall_ok line e f (k : M unit) v tr :
  libraryRaises line = false ->
  (libraryCall line e f >> k) (v, tr) = k (f v, tr ++ [line]).
Proof. intros H. unfold seq_, bind, libraryCall. now rewrite H. Qed.

Lemma libraryCall_raise line e f (k : M unit) v tr :
  libraryRaises line = true ->
  (libraryCall line e f >> k) (v, tr) = ((v, tr ++ [line]), inr (Raised line e)).
Proof. intros H. unfold seq_, bind, libraryCall. now rewrite H. Qed.

(** Lines 28-74 either stop at a library call that raises or leave the
    reactor initialised over the store. *)
Lemma setup_run v tr :
  match setup (v, tr) with
  | (st', inl _) =>
      vars st' = setWorld (initializeModel S gasVolume initialAmounts reactorConditions []
                                           coreSpecies (coreReactions kf kr) (store v)) v
  | (_, inr (Raised l _)) => libraryRaises l = true /\ (l <= 73)%nat
  | (_, inr (Returned _)) => False
  end.
Proof.
  unfold setup.
  destruct (libraryRaises 28) eqn:E28;
    [rewrite (libraryCall_raise _ _ _ _ _ _ E28); split; [assumption | lia]|].
  rewrite (libraryCall_ok _ _ _ _ _ _ E28).
  destruct (libraryRaises 36) eqn:E36;
    [rewrite (libraryCall_raise _ _ _ _ _ _ E36); split; [assumption | lia]|].
  rewrite (libraryCall_ok _ _ _ _ _ _ E36).
  destruct (libraryRaises 43) eqn:E43;
    [rewrite (libraryCall_raise _ _ _ _ _ _ E43); split; [assumption | lia]|].
  rewrite (libraryCall_ok _ _ _ _ _ _ E43).
  destruct (libraryRaises 51) eqn:E51;
    [rewrite (libraryCall_raise _ _ _ _ _ _ E51); split; [assumption | lia]|].
  rewrite (libraryCall_ok _ _ _ _ _ _ E51).
  rewrite !stmt_seq.
  destruct (libraryRaises 65) eqn:E65;
    [rewrite (libraryCall_raise _ _ _ _ _ _ E65); split; [assumption | lia]|].
  rewrite (libraryCall_ok _ _ _ _ _ _ E65).
  unfold libraryCall. destruct (libraryRaises 73) eqn:E73; [split; [assumption | lia]|].
  reflexivity.
Qed.

Lemma sameReactor_refl (w : heap * Reactor S) : sameReactor S w w.
Proof. unfold sameReactor. repeat split; reflexivity. Qed.

(** A raising call of [advance] ends the integration loop at line 85. *)
Lemma sampling_raise t1 targets v tr :
  libraryRaises 85 = true ->
  exists st', forEach 84 (t1 :: targets) sampleBody (v, tr)
              = (st', inr (Raised 85 ExternalError)).
Proof.
  intros H85. cbn [forEach]. rewrite stmt_seq. unfold sampleBody.
  unfold seq_ at 1. unfold bind at 1.
  rewrite (libraryCall_raise _ _ _ _ _ _ H85). eexists. reflexivity.
Qed.

(** What the histories hold once lines 76-98 are through. *)
Definition collected (h : heap) (v : Vars) : Prop :=
  t_ v = List.map obsTime (sampled h) /\
  y_ v = List.map obsState (sampled h) /\
  reactionRates_ v = List.map obsReactionRates (sampled h) /\
  speciesRates_ v = List.map obsSpeciesRates (sampled h).

Lemma sampling_convert_run v tr r :
  libraryRaises 85 = false ->
  rxnSystem v = Some r -> yRefs v = [] ->
  exists v' tr',
    (sampling >> convert) (v, tr) = ((v', tr'), inl tt) /\
    t_ v' = t_ v ++ List.map obsTime (trajectory S Sampling.tlist (store v, r)) /\
    y_ v' = List.map obsState (trajectory S Sampling.tlist (store v, r)) /\
    reactionRates_ v'
    = reactionRates_ v ++ List.map obsReactionRates (trajectory S Sampling.tlist (store v, r)) /\
    speciesRates_ v'
    = speciesRates_ v ++ List.map obsSpeciesRates (trajectory S Sampling.tlist (store v, r)).
Proof.
  intros H85 Hr Hrefs.
  assert (Hcopies : copiesOf (store v) (y r) (yRefs v)) by (rewrite Hrefs; constructor).
  unfold sampling. change skip with (fun x : Vars => x).
  unfold seq_ at 1. unfold bind at 1.
  rewrite !stmt_seq.
  destruct (sampling_loop Sampling.tlist H85 v (((((tr ++ [76]) ++ [80]) ++ [81]) ++ [82]) ++ [83])%nat
              r (store v, r) Hr (sameReactor_refl _) Hcopies)
    as (v1 & tr1 & r1 & Hrun & Hr1 & Hy1 & HV1 & Ht1 & Hrr1 & Hsr1 & Hys1).
  rewrite Hrun. unfold convert. rewrite !stmt_seq, stmt_run.
  eexists. eexists. split; [reflexivity|].
  unfold withReactor, skip. cbn [rxnSystem]. rewrite Hr1.
  cbn [t_ y_ reactionRates_ speciesRates_ store yRefs].
  rewrite Hys1, Hrefs. cbn [List.map app].
  repeat split; assumption.
Qed.

Lemma sampling_convert_raise v tr :
  libraryRaises 85 = true ->
  exists st', (sampling >> convert) (v, tr) = (st', inr (Raised 85 ExternalError)).
Proof.
  intros H85. unfold sampling. unfold seq_ at 1. unfold bind at 1.
  rewrite !stmt_seq.
  pose proof Sampling.tlist_length as Hlen.
  destruct Sampling.tlist as [|t1 rest]; [discriminate Hlen|].
  destruct (sampling_raise t1 rest (skip (skip (skip (skip (skip v)))))
              (((((tr ++ [76]) ++ [80]) ++ [81]) ++ [82]) ++ [83])%nat H85) as [st' H].
  rewrite H. eexists. reflexivity.
Qed.

(** Lines 28-98 stop at a raising call of the set-up or of [advance], or
    collect the trajectory observed along the sampling times. *)
Lemma prologue_run (h : heap) :
  match prologue (entry h) with
  | (st', inl _) => collected h (vars st')
  | (_, inr (Raised l _)) => libraryRaises l = true /\ (l <= 85)%nat
  | (_, inr (Returned _)) => False
  end.
Proof.
  unfold prologue, entry.
  pose proof (setup_run (mkVars h None [] [] [] [] [] 0) []) as Hsetup.
  destruct (setup (mkVars h None [] [] [] [] [] 0, [])) as [[v1 tr1] [[]|s]] eqn:E.
  - rewrite (seq_ok _ _ _ _ E). cbn [vars fst store] in Hsetup.
    fold (initialWorld h) in Hsetup.
    destruct (libraryRaises 85) eqn:H85.
    + destruct (sampling_convert_raise v1 tr1 H85) as [st' Hrun].
      rewrite Hrun. split; [exact H85 | lia].
    + assert (Hr1 : rxnSystem v1 = Some (snd (initialWorld h))) by (now rewrite Hsetup).
      assert (Hrefs1 : yRefs v1 = []) by (now rewrite Hsetup).
      assert (Hst : store v1 = fst (initialWorld h)) by (now rewrite Hsetup).
      assert (Ht0 : t_ v1 = []) by (now rewrite Hsetup).
      assert (Hrr0 : reactionRates_ v1 = []) by (now rewrite Hsetup).
      assert (Hsr0 : speciesRates_ v1 = []) by (now rewrite Hsetup).
      destruct (sampling_convert_run v1 tr1 _ H85 Hr1 Hrefs1)
        as (v' & tr' & Hrun & Ht & Hy & Hrr & Hsr).
      rewrite Hrun. cbn [vars fst].
      rewrite Hst, <- surjective_pairing in Ht, Hy, Hrr, Hsr.
      rewrite Ht0 in Ht. rewrite Hrr0 in Hrr. rewrite Hsr0 in Hsr.
      unfold collected, sampled. repeat split; assumption.
  - rewrite (seq_stop _ _ _ _ _ E). destruct s as [l|l e]; [exact Hsetup|].
    destruct Hsetup as [H1 H2]. split; [exact H1 | lia].
Qed.

(** *** The flux assertions *)

(** The net rate against the three species rates, as lines 102-107 compare
    them (before any tolerance). *)
Definition fluxRow (rr sr : list Q) : Prop :=
  nth 0 rr 0 == - (1) * nth 0 sr 0 /\
  nth 0 rr 0 == - (1 # 2) * nth 1 sr 0 /\
  nth 0 rr 0 == (1 # 2) * nth 2 sr 0.

Lemma rateEvaluator_fluxRow (m : Model) (ys : list Q) :
  speciesPhase m = coreSpecies -> Engine.coreReactions m = coreReactions kf kr ->
  fluxRow (reactionRates m ys) (speciesRates m ys).
Proof.
  intros Hp Hr. unfold fluxRow, speciesRates, reactionRates, numCoreSpecies.
  rewrite Hp, Hr. cbn [coreReactions coreSpecies length seq List.map nth stoichSum].
  unfold stoich, occurrences. cbn [rxn1 products reactants count_occ H2 X HX].
  cbn. generalize (reactionRate m ys (rxn1 kf kr)). intros r.
  change (inject_Z (Z.of_nat 0 - Z.of_nat 1)) with (- 1 # 1).
  change (inject_Z (Z.of_nat 0 - Z.of_nat 2)) with (- 2 # 1).
  change (inject_Z (Z.of_nat 2 - Z.of_nat 0)) with (2 # 1).
  repeat split; ring.
Qed.

Lemma sampled_fluxRow (h : heap) :
  Forall (fun o => fluxRow (obsReactionRates o) (obsSpeciesRates o)) (sampled h).
Proof.
  unfold sampled.
  pose proof (trajectory_rates S Sampling.tlist (initialWorld h)) as H.
  eapply Forall_impl; [exact H|].
  intros o Ho. injection Ho as Hrr Hsr. rewrite Hrr, Hsr.
  now apply rateEvaluator_fluxRow.
Qed.

Lemma fluxRow_nil : fluxRow [] [].
Proof. unfold fluxRow. cbn. repeat split; reflexivity. Qed.

Lemma fluxRow_rows (obs : list Observation) :
  Forall (fun o => fluxRow (obsReactionRates o) (obsSpeciesRates o)) obs ->
  forall i, fluxRow (nth i (List.map obsReactionRates obs) [])
                    (nth i (List.map obsSpeciesRates obs) []).
Proof.
  induction 1 as [|o obs Ho _ IH]; intros [|i]; cbn [List.map nth];
    try apply fluxRow_nil; auto.
Qed.

Lemma assertAlmostEqual_ok line a b d (k : M unit) v tr :
  Py.assertAlmostEqual (a v) (b v) (d v) = true ->
  (assertAlmostEqual line a b d >> k) (v, tr) = k (v, tr ++ [line]).
Proof. intros H. unfold seq_, bind, assertAlmostEqual. cbn [vars fst]. now rewrite H. Qed.

Lemma assertAlmostEqual_run line a b d v tr :
  assertAlmostEqual line a b d (v, tr)
  = ((v, tr ++ [line]),
     if Py.assertAlmostEqual (a v) (b v) (d v) then inl tt
     else inr (Raised line AssertionError)).
Proof.
  unfold assertAlmostEqual. cbn [vars fst].
  now destruct (Py.assertAlmostEqual (a v) (b v) (d v)).
Qed.

Lemma fluxBody_run i v tr :
  fluxRow (nth i (reactionRates_ v) []) (nth i (speciesRates_ v) []) ->
  exists tr', fluxBody i (v, tr) = ((v, tr'), inl tt).
Proof.
  intros (H0 & H1 & H2). unfold fluxBody, at2.
  rewrite !assertAlmostEqual_ok by (now apply Py.assertAlmostEqual_of_Qeq).
  rewrite assertAlmostEqual_run.
  rewrite Py.assertAlmostEqual_of_Qeq by exact H2.
  eexists. reflexivity.
Qed.

Lemma fluxLoop_run (idx : list nat) : forall v tr,
  (forall i, fluxRow (nth i (reactionRates_ v) []) (nth i (speciesRates_ v) [])) ->
  exists tr', forEach 101 idx fluxBody (v, tr) = ((v, tr'), inl tt).
Proof.
  induction idx as [|i idx IH]; intros v tr Hrows; cbn [forEach].
  - rewrite stmt_run. eexists. reflexivity.
  - rewrite stmt_seq. change (skip v) with v.
    destruct (fluxBody_run i v (tr ++ [101%nat]) (Hrows i)) as [tr1 H1].
    rewrite (seq_ok _ _ _ _ H1). apply IH. exact Hrows.
Qed.

Lemma fluxChecks_run h v tr :
  collected h v -> exists tr', fluxChecks (v, tr) = ((v, tr'), inl tt).
Proof.
  intros (_ & _ & Hrr & Hsr). unfold fluxChecks. apply fluxLoop_run.
  intros i. rewrite Hrr, Hsr. apply fluxRow_rows, sampled_fluxRow.
Qed.

(** *** Where the method can stop *)

(** [reactionRates[-1, 0]] of line 110, read off the observed trajectory. *)
Definition finalRate (h : heap) : Q :=
  nth 0 (Py.last_item (List.map obsReactionRates (sampled h)) []) 0.

Ltac library_step E :=
  match goal with
  | |- context [(libraryCall ?l ?e ?f >> ?k) (?v, ?tr)] =>
      destruct (libraryRaises l) eqn:E;
      [ rewrite (libraryCall_raise l e f k v tr E); split; [exact E | lia]
      | rewrite (libraryCall_ok l e f k v tr E) ]
  end.

Lemma plotting_run st :
  match plotting st with
  | (_, inl _) => True
  | (_, inr (Raised l _)) => libraryRaises l = true /\ (114 <= l <= 127)%nat
  | (_, inr (Returned _)) => False
  end.
Proof.
  destruct st as [v tr]. unfold plotting.
  do 12 (let E := fresh "E" in library_step E).
  unfold libraryCall. destruct (libraryRaises 127) eqn:E127; [split; [exact E127 | lia] | exact I].
Qed.

Lemma beforeReturn_run (h : heap) :
  match beforeReturn (entry h) with
  | (_, inl _) => Py.assertAlmostEqual (finalRate h) 0 (1 # 100) = true
  | (_, inr (Raised l e)) =>
      (libraryRaises l = true /\ ((l <= 85)%nat \/ (114 <= l <= 127)%nat)) \/
      (l = 110%nat /\ e = AssertionError /\
       Py.assertAlmostEqual (finalRate h) 0 (1 # 100) = false)
  | (_, inr (Returned _)) => False
  end.
Proof.
  unfold beforeReturn.
  pose proof (prologue_run h) as Hpro.
  destruct (prologue (entry h)) as [[v1 tr1] [[]|s]] eqn:E.
  - rewrite (seq_ok _ _ _ _ E). cbn [vars fst] in Hpro.
    destruct (fluxChecks_run h v1 tr1 Hpro) as [tr2 Hflux].
    rewrite (seq_ok _ _ _ _ Hflux).
    unfold equilibriumCheck, seq_, bind. rewrite assertAlmostEqual_run.
    destruct Hpro as (_ & _ & Hrr & _). rewrite Hrr. fold (finalRate h).
    destruct (Py.assertAlmostEqual (finalRate h) 0 (1 # 100)) eqn:Eq.
    + pose proof (plotting_run (v1, tr2 ++ [110%nat])) as Hplot.
      destruct (plotting (v1, tr2 ++ [110%nat])) as [st3 [[]|[l|l e]]];
        [reflexivity | exact Hplot |].
      left. destruct Hplot as [H1 H2]. split; [exact H1 | right; exact H2].
    + right. repeat split; reflexivity.
  - rewrite (seq_stop _ _ _ _ _ E). destruct s as [l|l e]; [exact Hpro|].
    left. destruct Hpro as [H1 H2]. split; [exact H1 | left; exact H2].
Qed.

Lemma beforeReturn_passes (h : heap) :
  (forall l, libraryRaises l = false) ->
  Py.assertAlmostEqual (finalRate h) 0 (1 # 100) = true ->
  snd (beforeReturn (entry h)) = inl tt.
Proof.
  intros Hlib Heq. pose proof (beforeReturn_run h) as H.
  destruct (beforeReturn (entry h)) as [st [[]|[l|l e]]]; cbn [snd].
  - reflexivity.
  - contradiction.
  - destruct H as [[H _]|(_ & _ & H)].
    + rewrite Hlib in H. discriminate.
    + rewrite Heq in H. discriminate.
Qed.

(** *** The tolerance of the flux assertions *)

(** How the three assertions of one pass end. *)
Lemma fluxBody_outcome i v tr :
  let r := at2 (reactionRates_ v) i 0 in
  snd (fluxBody i (v, tr))
  = if Py.assertAlmostEqual r (- (1) * at2 (speciesRates_ v) i 0) ((1 # 1000000) * r)
    then if Py.assertAlmostEqual r (- (1 # 2) * at2 (speciesRates_ v) i 1) ((1 # 1000000) * r)
         then if Py.assertAlmostEqual r ((1 # 2) * at2 (speciesRates_ v) i 2) ((1 # 1000000) * r)
              then inl tt
              else inr (Raised 106 AssertionError)
         else inr (Raised 104 AssertionError)
    else inr (Raised 102 AssertionError).
Proof.
  cbn zeta. unfold fluxBody, seq_, bind. rewrite assertAlmostEqual_run.
  destruct (Py.assertAlmostEqual _ _ _); [|reflexivity].
  rewrite assertAlmostEqual_run.
  destruct (Py.assertAlmostEqual _ _ _); [|reflexivity].
  rewrite assertAlmostEqual_run.
  destruct (Py.assertAlmostEqual _ _ _); reflexivity.
Qed.

(** X4: the tolerance of lines 103, 105 and 107 is [1e-6] times the reaction
    rate itself, sign included: at a sample whose reaction rate is zero or
    negative the three assertions pass exactly when the rate equals minus
    the species rate of [H2], minus one half that of [X] and one half that of
    [HX]; otherwise the pass is left by an [AssertionError] of line 102, 104
    or 106. *)
Theorem flux_tolerance_is_signed (i : nat) (v : Vars) (tr : list nat) :
  at2 (reactionRates_ v) i 0 <= 0 ->
  (snd (fluxBody i (v, tr)) = inl tt <->
   fluxRow (nth i (reactionRates_ v) []) (nth i (speciesRates_ v) [])) /\
  (snd (fluxBody i (v, tr)) = inl tt \/
   exists l, snd (fluxBody i (v, tr)) = inr (Raised l AssertionError) /\
             (l = 102 \/ l = 104 \/ l = 106)%nat).
Proof.
  intros Hr. rewrite fluxBody_outcome. cbn zeta.
  assert (Hd : (1 # 1000000) * at2 (reactionRates_ v) i 0 <= 0).
  { apply Qle_trans with ((1 # 1000000) * 0);
      [apply Qmult_le_l; [reflexivity | exact Hr] | vm_compute; discriminate]. }
  pose proof (Py.assertAlmostEqual_nonpositive_delta (at2 (reactionRates_ v) i 0)
                (- (1) * at2 (speciesRates_ v) i 0) _ Hd) as H0.
  pose proof (Py.assertAlmostEqual_nonpositive_delta (at2 (reactionRates_ v) i 0)
                (- (1 # 2) * at2 (speciesRates_ v) i 1) _ Hd) as H1.
  pose proof (Py.assertAlmostEqual_nonpositive_delta (at2 (reactionRates_ v) i 0)
                ((1 # 2) * at2 (speciesRates_ v) i 2) _ Hd) as H2'.
  unfold fluxRow. unfold at2 in *.
  destruct (Py.assertAlmostEqual _ (- (1) * _) _);
    [destruct (Py.assertAlmostEqual _ (- (1 # 2) * _) _);
     [destruct (Py.assertAlmostEqual _ ((1 # 2) * _) _)|]|].
  - split; [|now left]. split; [intros _|reflexivity].
    repeat split; [apply H0 | apply H1 | apply H2']; reflexivity.
  - split; [|right; exists 106%nat; auto].
    split; [discriminate|]. intros (_ & _ & E). apply H2' in E. discriminate E.
  - split; [|right; exists 104%nat; auto].
    split; [discriminate|]. intros (_ & E & _). apply H1 in E. discriminate E.
  - split; [|right; exists 102%nat; auto].
    split; [discriminate|]. intros (E & _). apply H0 in E. discriminate E.
Qed.

(** X5: at a sample whose reaction rate is positive the three assertions of
    lines 102-107 pass exactly when minus the species rate of [H2], minus one
    half that of [X] and one half that of [HX] each lie within the relative
    tolerance [1e-6] of the reaction rate. *)
Theorem flux_tolerance_is_relative (i : nat) (v : Vars) (tr : list nat) :
  0 < at2 (reactionRates_ v) i 0 ->
  (snd (fluxBody i (v, tr)) = inl tt <->
   Py.withinRelTol (1 # 1000000) (at2 (reactionRates_ v) i 0)
                   (- (1) * at2 (speciesRates_ v) i 0) /\
   Py.withinRelTol (1 # 1000000) (at2 (reactionRates_ v) i 0)
                   (- (1 # 2) * at2 (speciesRates_ v) i 1) /\
   Py.withinRelTol (1 # 1000000) (at2 (reactionRates_ v) i 0)
                   ((1 # 2) * at2 (speciesRates_ v) i 2)).
Proof.
  intros Hr. rewrite fluxBody_outcome. cbn zeta. unfold Py.withinRelTol.
  rewrite (Qabs_pos (at2 (reactionRates_ v) i 0)) by (now apply Qlt_le_weak).
  assert (Hd : 0 <= (1 # 1000000) * at2 (reactionRates_ v) i 0)
    by (apply Qmult_le_0_compat; [discriminate | now apply Qlt_le_weak]).
  rewrite <- !(Py.assertAlmostEqual_nonnegative_delta _ _ _ Hd).
  destruct (Py.assertAlmostEqual _ (- (1) * _) _);
    [destruct (Py.assertAlmostEqual _ (- (1 # 2) * _) _);
     [destruct (Py.assertAlmostEqual _ ((1 # 2) * _) _)|]|];
    split; try discriminate; try (intros (? & ? & ?); discriminate);
    try reflexivity; intros _; repeat split; reflexivity.
Qed.

(** *** How the method ends *)

(** The statements of lines 28-74 (constructors, [initializeModel]) and of
    lines 114-127 (the plot) that call into code outside the method, in the
    order of execution. *)
Definition setupCalls : list nat := [28; 36; 43; 51; 65; 73]%nat.
Definition plottingCalls : list nat :=
  [114; 115; 116; 117; 118; 119; 120; 121; 122; 123; 124; 125; 127]%nat.

(** The exception a failing call of the plot is modelled by. *)
Definition plottingError (line : nat) : Exn :=
  if Nat.eqb line 114 then ImportError else ExternalError.

Lemma setup_result v tr :
  match find libraryRaises setupCalls with
  | Some l => snd (setup (v, tr)) = inr (Raised l ExternalError)
  | None =>
      exists tr',
        setup (v, tr)
        = ((setWorld (initializeModel S gasVolume initialAmounts reactorConditions []
                                      coreSpecies (coreReactions kf kr) (store v)) v, tr'),
           inl tt)
  end.
Proof.
  unfold setup, setupCalls. cbn [find].
  destruct (libraryRaises 28) eqn:E28;
    [now rewrite (libraryCall_raise _ _ _ _ _ _ E28)|].
  rewrite (libraryCall_ok _ _ _ _ _ _ E28).
  destruct (libraryRaises 36) eqn:E36;
    [now rewrite (libraryCall_raise _ _ _ _ _ _ E36)|].
  rewrite (libraryCall_ok _ _ _ _ _ _ E36).
  destruct (libraryRaises 43) eqn:E43;
    [now rewrite (libraryCall_raise _ _ _ _ _ _ E43)|].
  rewrite (libraryCall_ok _ _ _ _ _ _ E43).
  destruct (libraryRaises 51) eqn:E51;
    [now rewrite (libraryCall_raise _ _ _ _ _ _ E51)|].
  rewrite (libraryCall_ok _ _ _ _ _ _ E51).
  rewrite !stmt_seq.
  destruct (libraryRaises 65) eqn:E65;
    [now rewrite (libraryCall_raise _ _ _ _ _ _ E65)|].
  rewrite (libraryCall_ok _ _ _ _ _ _ E65).
  unfold libraryCall. destruct (libraryRaises 73); [reflexivity|].
  eexists. reflexivity.
Qed.

Lemma prologue_result (h : heap) :
  match find libraryRaises setupCalls with
  | Some l => snd (prologue (entry h)) = inr (Raised l ExternalError)
  | None =>
      if libraryRaises 85
      then snd (prologue (entry h)) = inr (Raised 85 ExternalError)
      else exists st', prologue (entry h) = (st', inl tt) /\ collected h (vars st')
  end.
Proof.
  pose proof (setup_result (mkVars h None [] [] [] [] [] 0) []) as Hsetup.
  pose proof (prologue_run h) as Hrun.
  unfold prologue, entry in *.
  destruct (find libraryRaises setupCalls) as [l|].
  - destruct (setup (mkVars h None [] [] [] [] [] 0, [])) as [st1 res] eqn:E.
    cbn [snd] in Hsetup. subst res. now rewrite (seq_stop _ _ _ _ _ E).
  - destruct Hsetup as [tr1 Hsetup].
    rewrite (seq_ok _ _ _ _ Hsetup) in *.
    match type of Hsetup with _ = ((?v1, _), _) => set (v := v1) in * end.
    destruct (libraryRaises 85) eqn:H85.
    + destruct (sampling_convert_raise v tr1 H85) as [st' Hsc]. now rewrite Hsc.
    + destruct (sampling_convert_run v tr1 (snd (initialWorld h)) H85 eq_refl eq_refl)
        as (v' & tr' & Hsc & _).
      rewrite Hsc in *. exists (v', tr'). split; [reflexivity | exact Hrun].
Qed.

Lemma plotting_result st :
  snd (plotting st)
  = match find libraryRaises plottingCalls with
    | Some l => inr (Raised l (plottingError l))
    | None => inl tt
    end.
Proof.
  destruct st as [v tr]. unfold plotting, plottingCalls. cbn [find].
  repeat match goal with
  | |- context [(libraryCall ?l ?e ?f >> ?k) (?v, ?tr)] =>
      let E := fresh "E" in
      destruct (libraryRaises l) eqn:E;
      [ now rewrite (libraryCall_raise l e f k v tr E)
      | rewrite (libraryCall_ok l e f k v tr E) ]
  end.
  unfold libraryCall. now destruct (libraryRaises 127).
Qed.

(** The equilibrium assertion of line 110 against the bound it stands
    for. *)
Lemma equilibrium_assertion (r : Q) :
  Py.assertAlmostEqual r 0 (1 # 100) = Qle_bool (Qabs r) (1 # 100).
Proof.
  unfold Py.assertAlmostEqual.
  assert (E : Qabs (r - 0) == Qabs r) by (apply Qabs_wd; ring).
  assert (Hle : Qle_bool (Qabs (r - 0)) (1 # 100) = Qle_bool (Qabs r) (1 # 100)).
  { destruct (Qle_bool (Qabs r) (1 # 100)) eqn:E1.
    - apply Qle_bool_iff. rewrite E. now apply Qle_bool_iff.
    - destruct (Qle_bool (Qabs (r - 0)) (1 # 100)) eqn:E2; [|reflexivity].
      apply Qle_bool_iff in E2. rewrite E in E2. apply Qle_bool_iff in E2. congruence. }
  rewrite Hle. destruct (Qeq_bool r 0) eqn:E0; [|reflexivity]. cbn [orb].
  symmetry. apply Qle_bool_iff. apply Qeq_bool_iff in E0.
  assert (Ea : Qabs r == Qabs 0) by (now apply Qabs_wd).
  rewrite Ea. vm_compute. discriminate.
Qed.

(** What is executed up to line 110 lies at or before line 110. *)
Lemma bounded_upToEquilibrium :
  bounded (fun l => (l <= 110)%nat) (prologue >> fluxChecks >> equilibriumCheck).
Proof.
  unfold prologue, setup, sampling, sampleBody, convert, equilibriumCheck.
  repeat first
    [ apply bounded_seq
    | apply bounded_stmt
    | apply bounded_libraryCall
    | apply bounded_assertAlmostEqual
    | apply bounded_fluxChecks
    | apply bounded_forEach
    | intros ? ]; lia.
Qed.

(** An exception of lines 28-98 ends the method where it is raised. *)
Lemma stop_in_prologue (h : heap) (l : nat) (e : Exn) :
  snd (prologue (entry h)) = inr (Raised l e) ->
  outcome h = inr (Raised l e) /\ Forall (fun l0 => (l0 <= 110)%nat) (executedLines h).
Proof.
  intros Hres. unfold outcome, executedLines. rewrite testSolve_cases.
  unfold beforeReturn.
  pose proof (bounded_upToEquilibrium (entry h)) as [(ls & Hls & HP) _].
  unfold seq_ at 1 2 in Hls. unfold bind at 1 2 in Hls.
  destruct (prologue (entry h)) as [st1 res] eqn:E. cbn [snd] in Hres. subst res.
  rewrite (seq_stop _ _ _ _ _ E). cbn [fst snd]. split; [reflexivity|].
  cbn [fst] in Hls. unfold executed in *. cbn [entry snd] in Hls.
  rewrite Hls. exact HP.
Qed.

(** X6: how the method ends, in full: a call of the set-up (constructors,
    [initializeModel]) that raises ends it; otherwise a raising call of
    [advance] ends it at line 85; otherwise the flux assertions pass and the
    equilibrium assertion of line 110 decides, failing exactly when the last
    sampled reaction rate exceeds [1e-2] in absolute value; after that only a
    call of the plot can keep the method from returning at line 130.  When
    the equilibrium assertion fails, no line of the plot has been executed:
    [import pylab] is not attempted. *)
Theorem testSolve_outcome (h : heap) :
  outcome h
  = match find libraryRaises setupCalls with
    | Some l => inr (Raised l ExternalError)
    | None =>
        if libraryRaises 85 then inr (Raised 85 ExternalError)
        else if Qle_bool (Qabs (finalRate h)) (1 # 100)
        then match find libraryRaises plottingCalls with
             | Some l => inr (Raised l (plottingError l))
             | None => inr (Returned 130)
             end
        else inr (Raised 110 AssertionError)
    end /\
  (outcome h = inr (Raised 110 AssertionError) ->
   Forall (fun l => (l <= 110)%nat) (executedLines h)).
Proof.
  pose proof (prologue_result h) as Hpro.
  destruct (find libraryRaises setupCalls) as [l|];
    [destruct (stop_in_prologue h l ExternalError Hpro) as [H1 H2]; split;
       [exact H1 | intros _; exact H2]|].
  destruct (libraryRaises 85);
    [destruct (stop_in_prologue h 85%nat ExternalError Hpro) as [H1 H2]; split;
       [exact H1 | intros _; exact H2]|].
  unfold outcome, executedLines. rewrite testSolve_cases.
  unfold beforeReturn.
  pose proof (bounded_upToEquilibrium (entry h)) as [(ls & Hls & HP) _].
  unfold seq_ at 1 2 in Hls. unfold bind at 1 2 in Hls.
  destruct Hpro as ([v1 tr1] & Hpro & Hcol). rewrite Hpro in Hls.
  rewrite (seq_ok _ _ _ _ Hpro). cbn [vars fst] in Hcol.
  destruct (fluxChecks_run h v1 tr1 Hcol) as [tr2 Hflux].
  rewrite Hflux in Hls. rewrite (seq_ok _ _ _ _ Hflux).
  unfold equilibriumCheck in *. unfold seq_, bind. rewrite assertAlmostEqual_run in *.
  destruct Hcol as (_ & _ & Hrr & _). rewrite Hrr in *. fold (finalRate h) in *.
  rewrite equilibrium_assertion in *.
  destruct (Qle_bool (Qabs (finalRate h)) (1 # 100)).
  - pose proof (plotting_result (v1, tr2 ++ [110%nat])) as Hplot.
    destruct (plotting (v1, tr2 ++ [110%nat])) as [st3 res]. cbn [snd] in Hplot. subst res.
    destruct (find libraryRaises plottingCalls) as [l|] eqn:Ef; cbn [fst snd].
    + split; [reflexivity|]. intros E. injection E as E1 _.
      apply find_some in Ef. destruct Ef as [Hin _]. subst l.
      exfalso. cbn in Hin. repeat (destruct Hin as [Hin|Hin]; [discriminate Hin|]).
      exact Hin.
    + split; [reflexivity | discriminate].
  - cbn [fst snd] in *. split; [reflexivity|]. intros _.
    unfold executed in *. cbn [entry snd] in Hls. rewrite Hls. exact HP.
Qed.

(** *** What the histories hold *)

(** The observation after call [i] of a sequence of [advance] calls is
    that of the reactor advanced through the first [i + 1] targets. *)
Lemma trajectory_nth targets : forall (w : heap * Reactor S) (i : nat) (d : Observation),
  (i < length targets)%nat ->
  nth i (trajectory S targets w) d
  = observe S (advanceAll S (firstn (Datatypes.S i) targets) w).
Proof.
  induction targets as [|a targets IH]; intros w i d Hi; [cbn in Hi; lia|].
  destruct i as [|i]; cbn [trajectory nth].
  - reflexivity.
  - cbn [length] in Hi. rewrite IH by lia. reflexivity.
Qed.

Lemma trajectory_length targets : forall w : heap * Reactor S,
  length (trajectory S targets w) = length targets.
Proof.
  induction targets as [|a targets IH]; intros w; cbn [trajectory length]; [reflexivity|].
  now rewrite IH.
Qed.

(** X2: when no call of lines 28-98 raises (constructors,
    [initializeModel], [advance]), these lines run through and leave in
    [t], [y], [reactionRates] and [speciesRates] one row for each of the 81
    target times: row [i] holds the time, the state, the reaction
    rates and the species rates the reactor had right after the call
    [advance(tlist[i])], although the reactor has overwritten its own state
    array at every later call. *)
Theorem histories_hold_one_row_per_target_time (h : heap) :
  (forall l, (l <= 98)%nat -> libraryRaises l = false) ->
  exists st',
    prologue (entry h) = (st', inl tt) /\
    length (t_ (vars st')) = 81%nat /\
    length (y_ (vars st')) = 81%nat /\
    length (reactionRates_ (vars st')) = 81%nat /\
    length (speciesRates_ (vars st')) = 81%nat /\
    forall i, (i < 81)%nat ->
      let w := advanceAll S (firstn (Datatypes.S i) Sampling.tlist) (initialWorld h) in
      nth i (t_ (vars st')) 0%R = t (snd w) /\
      nth i (y_ (vars st')) [] = readArray (fst w) (y (snd w)) /\
      nth i (reactionRates_ (vars st')) [] = coreReactionRates (snd w) /\
      nth i (speciesRates_ (vars st')) [] = coreSpeciesRates (snd w).
Proof.
  intros Hlib.
  pose proof (prologue_result h) as Hpro.
  assert (Hfind : find libraryRaises setupCalls = None).
  { destruct (find libraryRaises setupCalls) as [l|] eqn:Ef; [|reflexivity].
    apply find_some in Ef. destruct Ef as [Hin Hl].
    rewrite Hlib in Hl; [discriminate Hl|].
    cbn in Hin. repeat (destruct Hin as [<-|Hin]; [lia|]). destruct Hin. }
  rewrite Hfind, (Hlib 85%nat) in Hpro by lia.
  destruct Hpro as (st' & Hrun & Ht & Hy & Hrr & Hsr).
  exists st'. split; [exact Hrun|].
  assert (Hlen : length (sampled h) = 81%nat).
  { unfold sampled. rewrite trajectory_length. apply Sampling.tlist_length. }
  rewrite Ht, Hy, Hrr, Hsr, !length_map.
  repeat (split; [exact Hlen|]).
  intros i Hi. cbn zeta.
  set (d := mkObservation 0%R [] [] []).
  change 0%R with (obsTime d).
  change (@nil Q) with (obsState d) at 1.
  change (@nil Q) with (obsReactionRates d) at 1.
  change (@nil Q) with (obsSpeciesRates d) at 1.
  rewrite !map_nth. unfold sampled.
  rewrite trajectory_nth by (rewrite Sampling.tlist_length; exact Hi).
  unfold observe. cbn [obsTime obsState obsReactionRates obsSpeciesRates].
  repeat split; reflexivity.
Qed.

(** *** The lines of a passing run *)

(** A statement that, whenever it completes, has executed exactly the given
    lines. *)
Definition executes (m : M unit) (lines : list nat) : Prop :=
  forall st st', m st = (st', inl tt) -> executed st' = executed st ++ lines.

Lemma executes_stmt line f : executes (stmt line f) [line].
Proof. intros [v tr] st' H. rewrite stmt_run in H. now injection H as <-. Qed.

Lemma executes_libraryCall line e f : executes (libraryCall line e f) [line].
Proof.
  intros [v tr] st' H. unfold libraryCall in H.
  destruct (libraryRaises line); [discriminate H|]. now injection H as <-.
Qed.

Lemma executes_assertAlmostEqual line a b d : executes (assertAlmostEqual line a b d) [line].
Proof.
  intros [v tr] st' H. rewrite assertAlmostEqual_run in H.
  destruct (Py.assertAlmostEqual _ _ _); [|discriminate H]. now injection H as <-.
Qed.

Lemma executes_seq m k ls ls' :
  executes m ls -> executes k ls' -> executes (m >> k) (ls ++ ls').
Proof.
  intros Hm Hk st st' H. unfold seq_, bind in H.
  destruct (m st) as [st1 [[]|s]] eqn:E; [|discriminate H].
  rewrite (Hk _ _ H), (Hm _ _ E). now rewrite app_assoc.
Qed.

Lemma executes_forEach {A : Type} line (xs : list A) body ls :
  (forall x, executes (body x) ls) ->
  executes (forEach line xs body)
           (List.concat (List.map (fun _ => line :: ls) xs) ++ [line]).
Proof.
  intros Hbody. induction xs as [|x xs IH]; cbn [forEach List.map List.concat].
  - apply executes_stmt.
  - replace (((line :: ls) ++ List.concat (List.map (fun _ => line :: ls) xs)) ++ [line])
      with ([line] ++ ls ++ List.concat (List.map (fun _ => line :: ls) xs) ++ [line])
      by (cbn [app]; now rewrite <- app_assoc).
    apply executes_seq; [apply executes_stmt|].
    apply executes_seq; [apply Hbody | exact IH].
Qed.

(** The lines of one pass of each loop, and of a whole passing run: the
    set-up, 81 passes of the integration loop, the conversions, 81 passes of
    the flux loop, the equilibrium assertion, the plot and the [return]. *)
Definition setupLines : list nat := [28; 36; 43; 51; 58; 59; 60; 61; 63; 64; 65; 73]%nat.
Definition samplingPass : list nat := [84; 85; 86; 89; 90; 91]%nat.
Definition fluxPass : list nat := [101; 102; 104; 106]%nat.

Definition loopLines (pass : list nat) (header count : nat) : list nat :=
  List.concat (repeat pass count) ++ [header].

Definition passingRun : list nat :=
  setupLines ++ [76; 80; 81; 82; 83]%nat ++ loopLines samplingPass 84 81
  ++ [94; 95; 96; 97; 98]%nat ++ loopLines fluxPass 101 81
  ++ [110]%nat ++ plottingCalls ++ [130]%nat.

Lemma map_const_repeat {A B : Type} (b : B) (xs : list A) :
  List.map (fun _ => b) xs = repeat b (length xs).
Proof. induction xs as [|x xs IH]; cbn; [reflexivity | now rewrite IH]. Qed.

Ltac single_lines :=
  repeat match goal with
  | |- executes (_ >> _) (?l :: ?ls) =>
      apply (executes_seq _ _ [l] ls);
      [ first [ apply executes_stmt | apply executes_libraryCall
              | apply executes_assertAlmostEqual ] | ]
  end;
  first [ apply executes_stmt | apply executes_libraryCall
        | apply executes_assertAlmostEqual ].

Lemma executes_prologue :
  executes prologue
           (setupLines ++ [76; 80; 81; 82; 83]%nat ++ loopLines samplingPass 84 81
            ++ [94; 95; 96; 97; 98]%nat).
Proof.
  assert (Hloop : executes (forEach 84 Sampling.tlist sampleBody)
                           (loopLines samplingPass 84 81)).
  { unfold loopLines.
    replace (repeat samplingPass 81)
      with (List.map (fun _ : R => samplingPass) Sampling.tlist)
      by (now rewrite map_const_repeat, Sampling.tlist_length).
    apply (executes_forEach 84 Sampling.tlist sampleBody [85; 86; 89; 90; 91]%nat).
    intros t1. unfold sampleBody. single_lines. }
  unfold prologue. apply executes_seq; [unfold setup, setupLines; single_lines|].
  rewrite app_assoc. apply executes_seq; [|unfold convert; single_lines].
  unfold sampling.
  repeat match goal with
  | |- executes (_ >> _) ((?l :: ?ls) ++ ?r) =>
      apply (executes_seq _ _ [l] (ls ++ r)); [apply executes_stmt|]
  end.
  exact Hloop.
Qed.

Lemma executes_plotting : executes plotting plottingCalls.
Proof. unfold plotting, plottingCalls. single_lines. Qed.

Lemma executes_fluxChecks st st' :
  length (t_ (vars st)) = 81%nat ->
  fluxChecks st = (st', inl tt) ->
  executed st' = executed st ++ loopLines fluxPass 101 81.
Proof.
  intros Hlen. unfold fluxChecks. rewrite Hlen.
  unfold loopLines.
  replace (repeat fluxPass 81) with (List.map (fun _ : nat => fluxPass) (seq 0 81))
    by (now rewrite map_const_repeat, length_seq).
  apply (executes_forEach 101 (seq 0 81) fluxBody [102; 104; 106]%nat).
  intros i. unfold fluxBody. single_lines.
Qed.

(** X7: a run of the method that returns at line 130 has executed exactly the
    lines of [passingRun], in that order: [advance] is called once for each
    of the 81 target times, the flux loop makes 81 passes of three assertions
    each, the equilibrium assertion is evaluated once, and nothing else
    happens in between. *)
Theorem passing_run_executes (h : heap) :
  outcome h = inr (Returned 130) ->
  executedLines h = passingRun /\
  count_occ Nat.eq_dec (executedLines h) 85%nat = 81%nat /\
  count_occ Nat.eq_dec (executedLines h) 102%nat = 81%nat /\
  count_occ Nat.eq_dec (executedLines h) 110%nat = 1%nat.
Proof.
  intros Hout.
  assert (Hlines : executedLines h = passingRun).
  { revert Hout. unfold outcome, executedLines. rewrite testSolve_cases.
    destruct (beforeReturn (entry h)) as [st' [[]|s]] eqn:E; cbn [fst snd];
      [intros _ | intros Hs; injection Hs as ->].
    - unfold beforeReturn, seq_, bind in E.
      pose proof (prologue_run h) as Hcol.
      destruct (prologue (entry h)) as [st1 [[]|s1]] eqn:E1; [|discriminate E].
      pose proof (executes_prologue _ _ E1) as H1.
      destruct Hcol as (Ht & _).
      assert (Hlen : length (t_ (vars st1)) = 81%nat).
      { rewrite Ht, length_map. unfold sampled. rewrite trajectory_length.
        apply Sampling.tlist_length. }
      destruct (fluxChecks st1) as [st2 [[]|s2]] eqn:E2; [|discriminate E].
      pose proof (executes_fluxChecks _ _ Hlen E2) as H2'.
      destruct (equilibriumCheck st2) as [st3 [[]|s3]] eqn:E3; [|discriminate E].
      pose proof (executes_assertAlmostEqual _ _ _ _ _ _ E3) as H3.
      pose proof (executes_plotting _ _ E) as H4.
      unfold log, executed in *. cbn [fst snd vars] in *.
      rewrite H4, H3, H2', H1. cbn [entry snd app]. unfold passingRun.
      rewrite <- !app_assoc. reflexivity.
    - pose proof (bounded_beforeReturn (entry h)) as [_ Hb]. rewrite E in Hb.
      cbn [snd] in Hb. contradiction. }
  rewrite Hlines. repeat split; vm_compute; reflexivity.
Qed.

End Test.

(** *** A concrete run

    Unit gas volume; one mole of [H2] over vacant sites only; a stepper
    that jumps to the equilibrium state of the rate law with [kf = 1] and
    [kr = 0.999932], and one that never moves the state. *)
Definition unitVolume (c : Conditions) : Q := 1.

Definition pureStart (c : Conditions) (species : list Phase) : list Q :=
  [1; 272 # 1000000; 0].

Definition settledStepper : Stepper :=
  mkStepper unit tt
    (fun _ _ hd t0 y0 target =>
       (hd, (target, [999932 # 1000000; 136 # 1000000; 136 # 1000000]))).

Definition frozenStepper : Stepper :=
  mkStepper unit tt (fun _ _ hd t0 y0 target => (hd, (target, y0))).

Definition pylabMissing (line : nat) : bool := Nat.eqb line 114.
Definition nothingRaises (line : nat) : bool := false.
Definition laterPasses (line : nat) : bool := true.

(** With every library call succeeding and the stepper at equilibrium the
    method returns at line 130. *)
Example testSolve_returns :
  outcome settledStepper unitVolume pureStart 1 (999932 # 1000000) (8314472 # 1000000)
          nothingRaises laterPasses ∅
  = inr (Returned 130).
Proof. vm_compute. reflexivity. Qed.

(** C9, as stated, fails: when [import pylab] raises, the method is left by
    the exception of line 114, and when the integration has not reached
    equilibrium it is left by the failed assertion of line 110; no [return]
    is executed in either run. *)
Lemma testSolve_raises_counterexample :
  outcome settledStepper unitVolume pureStart 1 (999932 # 1000000) (8314472 # 1000000)
          pylabMissing laterPasses ∅
  = inr (Raised 114 ImportError) /\
  outcome frozenStepper unitVolume pureStart 1 (999932 # 1000000) (8314472 # 1000000)
          nothingRaises laterPasses ∅
  = inr (Raised 110 AssertionError) /\
  ~ In 130%nat
      (executedLines settledStepper unitVolume pureStart 1 (999932 # 1000000)
                     (8314472 # 1000000) pylabMissing laterPasses ∅).
Proof.
  split; [vm_compute; reflexivity | split; [vm_compute; reflexivity|]].
  vm_compute. intuition discriminate.
Qed.

(** C9, amended: an execution of [testSolve] either returns at the
    [return] of line 130 or is left earlier by an exception raised at a line
    up to 127; it returns at line 130 whenever no library call raises and the
    equilibrium assertion of line 110 holds; and in every execution no line
    after 130 is executed. *)
Theorem testSolve_stops_by_line_130
  (S : Stepper) (gasVolume : Conditions -> Q)
  (initialAmounts : Conditions -> list Phase -> list Q)
  (kf kr gasConstant : Q) (libraryRaises laterCheck : nat -> bool) (h : heap) :
  let out := outcome S gasVolume initialAmounts kf kr gasConstant libraryRaises laterCheck h in
  (out = inr (Returned 130) \/
   exists l e, out = inr (Raised l e) /\ (l <= 127)%nat) /\
  Forall (fun l => (l <= 130)%nat)
         (executedLines S gasVolume initialAmounts kf kr gasConstant libraryRaises laterCheck h) /\
  ((forall l, libraryRaises l = false) ->
   Py.assertAlmostEqual (finalRate S gasVolume initialAmounts kf kr h) 0 (1 # 100) = true ->
   out = inr (Returned 130)).
Proof.
  cbn zeta. unfold outcome, executedLines. rewrite testSolve_cases.
  pose proof (bounded_beforeReturn S gasVolume initialAmounts kf kr gasConstant libraryRaises
                (entry S h)) as [(ls & Hls & HP) Hres].
  pose proof (beforeReturn_passes S gasVolume initialAmounts kf kr gasConstant libraryRaises h)
    as Hpass.
  destruct (beforeReturn S gasVolume initialAmounts kf kr gasConstant libraryRaises (entry S h))
    as [st' [[]|[l|l e]]]; cbn [fst snd] in *.
  - split; [left; reflexivity|]. split; [|reflexivity].
    unfold log, executed in *. cbn [snd] in *. rewrite Hls. cbn [app].
    apply Forall_app. split; [|repeat constructor].
    eapply Forall_impl; [exact HP|]. cbn. intros; lia.
  - contradiction.
  - split; [right; exists l, e; split; [reflexivity | exact Hres]|].
    split.
    + unfold executed in *. rewrite Hls. cbn [app].
      eapply Forall_impl; [exact HP|]. cbn. intros; lia.
    + intros Hlib Heq. specialize (Hpass Hlib Heq). discriminate Hpass.
Qed.

(** C1: at every sampled time of the simulation of [H2 + 2X <=> 2HX] the net
    reaction rate is minus the species rate of [H2], minus one half the
    species rate of [X] and one half the species rate of [HX], each within the
    relative tolerance [1e-6]; the assertions of lines 102-107 pass, so that no
    execution of the test is left by one of them. *)
Theorem species_fluxes_consistent
  (S : Stepper) (gasVolume : Conditions -> Q)
  (initialAmounts : Conditions -> list Phase -> list Q) (kf kr : Q) (h : heap) :
  Forall (fun o =>
            let rate := nth 0 (obsReactionRates o) 0 in
            let rH2 := nth H2 (obsSpeciesRates o) 0 in
            let rX := nth X (obsSpeciesRates o) 0 in
            let rHX := nth HX (obsSpeciesRates o) 0 in
            Py.withinRelTol (1 # 1000000) rate (- (1) * rH2) /\
            Py.withinRelTol (1 # 1000000) rate (- (1 # 2) * rX) /\
            Py.withinRelTol (1 # 1000000) rate ((1 # 2) * rHX) /\
            Py.assertAlmostEqual rate (- (1) * rH2) ((1 # 1000000) * rate) = true /\
            Py.assertAlmostEqual rate (- (1 # 2) * rX) ((1 # 1000000) * rate) = true /\
            Py.assertAlmostEqual rate ((1 # 2) * rHX) ((1 # 1000000) * rate) = true)
         (sampled S gasVolume initialAmounts kf kr h) /\
  length (sampled S gasVolume initialAmounts kf kr h) = 81%nat /\
  (forall (gasConstant : Q) (libraryRaises laterCheck : nat -> bool) (l : nat) (e : Exn),
     outcome S gasVolume initialAmounts kf kr gasConstant libraryRaises laterCheck h
     = inr (Raised l e) ->
     l <> 102%nat /\ l <> 104%nat /\ l <> 106%nat).
Proof.
  split; [|split].
  - eapply Forall_impl; [apply sampled_fluxRow|].
    intros o Ho. cbn zeta. unfold H2, X, HX. destruct Ho as (Ha & Hb & Hc).
    repeat split;
      first [ apply Py.withinRelTol_of_Qeq; [discriminate | assumption]
            | apply Py.assertAlmostEqual_of_Qeq; assumption ].
  - unfold sampled. generalize (initialWorld S gasVolume initialAmounts kf kr h).
    rewrite <- Sampling.tlist_length. generalize Sampling.tlist.
    induction l as [|a l IH]; intros w; cbn [trajectory length]; [reflexivity|].
    now rewrite IH.
  - intros gasConstant libraryRaises laterCheck l e.
    unfold outcome. rewrite testSolve_cases.
    pose proof (beforeReturn_run S gasVolume initialAmounts kf kr gasConstant libraryRaises h)
      as Hrun.
    destruct (beforeReturn S gasVolume initialAmounts kf kr gasConstant libraryRaises
                (entry S h)) as [st' [[]|[l'|l' e']]]; cbn [snd]; try discriminate.
    intros E. injection E as -> ->.
    destruct Hrun as [[_ Hl]|(Hl & _)]; lia.
Qed.

(** *** The volume of line 98 *)

Section GasConstant.

Variable S : Stepper.
Variable gasVolume : Conditions -> Q.
Variable initialAmounts : Conditions -> list Phase -> list Q.
Variables kf kr : Q.
Variable libraryRaises : nat -> bool.

(** The locals with [V] blanked. *)
Definition forgetV (v : Vars S) : Vars S :=
  mkVars S (store S v) (rxnSystem S v) (t_ S v) (yRefs S v) (y_ S v)
         (reactionRates_ S v) (speciesRates_ S v) 0.

(** Two states of the method that differ at most in [V]. *)
Definition sameButV (st1 st2 : Locals S) : Prop :=
  forgetV (vars S st1) = forgetV (vars S st2) /\ executed S st1 = executed S st2.

(** Two statements that, from states differing at most in [V], end the same
    way in states differing at most in [V]. *)
Definition respects (m1 m2 : M S unit) : Prop :=
  forall st1 st2, sameButV st1 st2 ->
    sameButV (fst (m1 st1)) (fst (m2 st2)) /\ snd (m1 st1) = snd (m2 st2).

Lemma respects_stmt line (f1 f2 : Vars S -> Vars S) :
  (forall v1 v2, forgetV v1 = forgetV v2 -> forgetV (f1 v1) = forgetV (f2 v2)) ->
  respects (stmt S line f1) (stmt S line f2).
Proof.
  intros Hf [v1 tr1] [v2 tr2] [Hv Htr].
  unfold sameButV, stmt, update, log, vars, executed in *. cbn [fst snd] in *. subst tr2.
  split; [split; [now apply Hf | reflexivity] | reflexivity].
Qed.

Lemma respects_libraryCall line e (f1 f2 : Vars S -> Vars S) :
  (forall v1 v2, forgetV v1 = forgetV v2 -> forgetV (f1 v1) = forgetV (f2 v2)) ->
  respects (libraryCall S libraryRaises line e f1) (libraryCall S libraryRaises line e f2).
Proof.
  intros Hf [v1 tr1] [v2 tr2] [Hv Htr].
  unfold sameButV, libraryCall, update, log, vars, executed in *. cbn [fst snd] in *.
  subst tr2.
  destruct (libraryRaises line); cbn [fst snd];
    (split; [split; [auto | reflexivity] | reflexivity]).
Qed.

Lemma respects_assertAlmostEqual line (a b d : Vars S -> Q) :
  (forall v1 v2, forgetV v1 = forgetV v2 -> a v1 = a v2) ->
  (forall v1 v2, forgetV v1 = forgetV v2 -> b v1 = b v2) ->
  (forall v1 v2, forgetV v1 = forgetV v2 -> d v1 = d v2) ->
  respects (assertAlmostEqual S line a b d) (assertAlmostEqual S line a b d).
Proof.
  intros Ha Hb Hd [v1 tr1] [v2 tr2] [Hv Htr].
  unfold sameButV, assertAlmostEqual, log, vars, executed in *. cbn [fst snd] in *.
  subst tr2.
  rewrite (Ha v1 v2 Hv), (Hb v1 v2 Hv), (Hd v1 v2 Hv).
  destruct (Py.assertAlmostEqual _ _ _); cbn [fst snd];
    (split; [split; [auto | reflexivity] | reflexivity]).
Qed.

Lemma respects_seq (m1 m2 k1 k2 : M S unit) :
  respects m1 m2 -> respects k1 k2 -> respects (seq_ S m1 k1) (seq_ S m2 k2).
Proof.
  intros Hm Hk st1 st2 Hst. unfold seq_, bind.
  destruct (Hm st1 st2 Hst) as [Hst' Hres].
  destruct (m1 st1) as [st1' [[]|s1]], (m2 st2) as [st2' [[]|s2]]; cbn [fst snd] in *;
    try discriminate.
  - now apply Hk.
  - split; assumption.
Qed.

Lemma respects_forEach {A : Type} line (xs : list A) (body1 body2 : A -> M S unit) :
  (forall x, respects (body1 x) (body2 x)) ->
  respects (forEach S line xs body1) (forEach S line xs body2).
Proof.
  intros Hbody. induction xs as [|x xs IH]; cbn [forEach].
  - now apply respects_stmt.
  - apply respects_seq; [now apply respects_stmt|].
    apply respects_seq; [apply Hbody | exact IH].
Qed.

Ltac blank_V :=
  let H := fresh "H" in
  intros [? ? ? ? ? ? ? ?] [? ? ? ? ? ? ? ?] H;
  unfold forgetV in H; cbn in H; injection H as; subst;
  unfold withReactor, setWorld, skip, forgetV, at2; cbn;
  try match goal with |- context [match ?r with _ => _ end] => destruct r end;
  reflexivity.

Lemma respects_fluxChecks : respects (fluxChecks S) (fluxChecks S).
Proof.
  intros st1 st2 Hst. unfold fluxChecks.
  assert (Hlen : t_ S (vars S st1) = t_ S (vars S st2)).
  { destruct Hst as [Hv _]. now apply (f_equal (t_ S)) in Hv. }
  rewrite Hlen.
  apply respects_forEach; [|exact Hst]. intros i. unfold fluxBody.
  repeat apply respects_seq; apply respects_assertAlmostEqual; blank_V.
Qed.

Lemma respects_beforeReturn (g1 g2 : Q) :
  respects (beforeReturn S gasVolume initialAmounts kf kr g1 libraryRaises)
           (beforeReturn S gasVolume initialAmounts kf kr g2 libraryRaises).
Proof.
  unfold beforeReturn, prologue, setup, sampling, sampleBody, convert, equilibriumCheck,
    plotting.
  repeat first
    [ apply respects_seq
    | apply respects_fluxChecks
    | apply respects_forEach; intros ?
    | apply respects_stmt; blank_V
    | apply respects_libraryCall; blank_V
    | apply respects_assertAlmostEqual; blank_V ].
Qed.

End GasConstant.

(** X3: the volume [V] that line 98 computes from the gas constant, the
    temperature, the pressure and the sum of all sampled amounts is used
    nowhere: how the method ends and which lines it executes do not depend on
    the value of the gas constant. *)
Theorem volume_is_never_used
  (S : Stepper) (gasVolume : Conditions -> Q)
  (initialAmounts : Conditions -> list Phase -> list Q)
  (kf kr g1 g2 : Q) (libraryRaises laterCheck : nat -> bool) (h : heap) :
  outcome S gasVolume initialAmounts kf kr g1 libraryRaises laterCheck h
  = outcome S gasVolume initialAmounts kf kr g2 libraryRaises laterCheck h /\
  executedLines S gasVolume initialAmounts kf kr g1 libraryRaises laterCheck h
  = executedLines S gasVolume initialAmounts kf kr g2 libraryRaises laterCheck h.
Proof.
  unfold outcome, executedLines. rewrite !testSolve_cases.
  assert (Hst : sameButV S (entry S h) (entry S h)) by (split; reflexivity).
  destruct (respects_beforeReturn S gasVolume initialAmounts kf kr libraryRaises g1 g2
              (entry S h) (entry S h) Hst) as [[_ Htr] Hres].
  destruct (beforeReturn S gasVolume initialAmounts kf kr g1 libraryRaises (entry S h))
    as [st1 [[]|s1]],
    (beforeReturn S gasVolume initialAmounts kf kr g2 libraryRaises (entry S h))
    as [st2 [[]|s2]]; cbn [fst snd] in *; try discriminate.
  - unfold log, executed in *. cbn [snd]. now rewrite Htr.
  - split; [exact Hres | exact Htr].
Qed.

(** *** Instances on the concrete run *)

Lemma flux_tolerance_is_signed_witness :
  let v := mkVars settledStepper ∅ None [] [] [] [[- (1)]] [[1; 2; - (2)]] 0 in
  (snd (fluxBody settledStepper 0 (v, [])) = inl tt <->
   fluxRow (nth 0 (reactionRates_ settledStepper v) [])
           (nth 0 (speciesRates_ settledStepper v) [])) /\
  (snd (fluxBody settledStepper 0 (v, [])) = inl tt \/
   exists l, snd (fluxBody settledStepper 0 (v, [])) = inr (Raised l AssertionError) /\
             (l = 102 \/ l = 104 \/ l = 106)%nat).
Proof.
  intros v. apply (flux_tolerance_is_signed settledStepper 0 v []).
  vm_compute. discriminate.
Defined.

Lemma flux_tolerance_is_relative_witness :
  let v := mkVars settledStepper ∅ None [] [] [] [[1]] [[- (1); - (2); 2]] 0 in
  snd (fluxBody settledStepper 0 (v, [])) = inl tt <->
  Py.withinRelTol (1 # 1000000) (at2 (reactionRates_ settledStepper v) 0 0)
                  (- (1) * at2 (speciesRates_ settledStepper v) 0 0) /\
  Py.withinRelTol (1 # 1000000) (at2 (reactionRates_ settledStepper v) 0 0)
                  (- (1 # 2) * at2 (speciesRates_ settledStepper v) 0 1) /\
  Py.withinRelTol (1 # 1000000) (at2 (reactionRates_ settledStepper v) 0 0)
                  ((1 # 2) * at2 (speciesRates_ settledStepper v) 0 2).
Proof.
  intros v. apply (flux_tolerance_is_relative settledStepper 0 v []).
  vm_compute. reflexivity.
Defined.

Lemma histories_hold_one_row_per_target_time_witness :
  exists st',
    prologue settledStepper unitVolume pureStart 1 (999932 # 1000000) (8314472 # 1000000)
             nothingRaises (entry settledStepper ∅) = (st', inl tt) /\
    length (t_ settledStepper (vars settledStepper st')) = 81%nat /\
    length (y_ settledStepper (vars settledStepper st')) = 81%nat /\
    length (reactionRates_ settledStepper (vars settledStepper st')) = 81%nat /\
    length (speciesRates_ settledStepper (vars settledStepper st')) = 81%nat /\
    forall i, (i < 81)%nat ->
      let w := advanceAll settledStepper (firstn (Datatypes.S i) Sampling.tlist)
                 (initialWorld settledStepper unitVolume pureStart 1 (999932 # 1000000) ∅) in
      nth i (t_ settledStepper (vars settledStepper st')) 0%R = t (snd w) /\
      nth i (y_ settledStepper (vars settledStepper st')) [] = readArray (fst w) (y (snd w)) /\
      nth i (reactionRates_ settledStepper (vars settledStepper st')) []
      = coreReactionRates (snd w) /\
      nth i (speciesRates_ settledStepper (vars settledStepper st')) []
      = coreSpeciesRates (snd w).
Proof.
  apply (histories_hold_one_row_per_target_time settledStepper unitVolume pureStart 1
           (999932 # 1000000) (8314472 # 1000000) nothingRaises ∅).
  intros l _. reflexivity.
Defined.

Lemma passing_run_executes_witness :
  executedLines settledStepper unitVolume pureStart 1 (999932 # 1000000)
                (8314472 # 1000000) nothingRaises laterPasses ∅
  = passingRun /\
  count_occ Nat.eq_dec
    (executedLines settledStepper unitVolume pureStart 1 (999932 # 1000000)
                   (8314472 # 1000000) nothingRaises laterPasses ∅) 85%nat = 81%nat /\
  count_occ Nat.eq_dec
    (executedLines settledStepper unitVolume pureStart 1 (999932 # 1000000)
                   (8314472 # 1000000) nothingRaises laterPasses ∅) 102%nat = 81%nat /\
  count_occ Nat.eq_dec
    (executedLines settledStepper unitVolume pureStart 1 (999932 # 1000000)
                   (8314472 # 1000000) nothingRaises laterPasses ∅) 110%nat = 1%nat.
Proof.
  apply (passing_run_executes settledStepper unitVolume pureStart 1 (999932 # 1000000)
           (8314472 # 1000000) nothingRaises laterPasses ∅).
  vm_compute. reflexivity.
Defined.

End SurfaceTest.
